(** * monero-javascript: MoneroUtils and MoneroTxFilter

    A shallow embedding of [src/main/js/common/MoneroUtils.js] (class
    [MoneroUtils], followed in the same file by class [MoneroTxFilter]) and
    the properties of its payment-id comparison, transaction merging,
    provider-backed conversions and transaction filter.

    Part I holds the definitions, Part II the lemmas and theorems. *)

From Stdlib Require Import ZArith Ascii String.
From stdpp Require Import base option list gmap strings.
From stdpp Require Import pretty.

(* ================================================================== *)
(** * Part I. Definitions                                              *)
(* ================================================================== *)

(* ------------------------------------------------------------------ *)
(** ** JavaScript values and completions                               *)
(* ------------------------------------------------------------------ *)

(** Plain data values: what a caller can write as a literal or receive
    from [JSON.parse].  Numbers are the integer-valued ones (heights,
    lengths); class instances are kept apart, in the types that hold
    them.  A string is a sequence of 8-bit characters. *)
#[warning="-register-all"]
Inductive JsVal : Type :=
  | JUndefined
  | JNull
  | JBool (b : bool)
  | JNum (n : Z)
  | JStr (s : string)
  | JArr (elems : list JsVal)
  | JObj (fields : list (string * JsVal)).

(** What a [throw] carries.  An assertion has the message it was given,
    or [None] when the runtime writes one.  [MoneroError msg] is an
    instance of class [MoneroError], as [new MoneroError(msg)] builds
    it in MoneroDaemon.js; [TypeError], [RangeError] and [SyntaxError]
    are the runtime's own, raised by a call of something that cannot be
    called, by a typed array asked to go beyond its bounds and by
    [JSON.parse]. *)
Inductive JsError : Type :=
  | AssertionError (msg : option string)
  | MoneroError (msg : string)
  | Error (msg : string)
  | TypeError
  | RangeError
  | SyntaxError.

(** A statement or call either completes normally with a value or
    throws. *)
Inductive completion (A : Type) : Type :=
  | Normal (a : A)
  | Throw (e : JsError).
Arguments Normal {A} a.
Arguments Throw {A} e.

#[global] Instance completion_ret : MRet completion := fun _ a => Normal a.
#[global] Instance completion_bind : MBind completion := fun _ _ k c =>
  match c with
  | Normal a => k a
  | Throw e => Throw e
  end.

(** [xs.map(f)] with a callback that may throw: elements in order, the
    first throw ends the call. *)
Fixpoint mapC {A B} (f : A -> completion B) (xs : list A) : completion (list B) :=
  match xs with
  | [] => Normal []
  | x :: xs' => y ← f x; ys ← mapC f xs'; Normal (y :: ys)
  end.

(** [assert(cond, msg)] and [assert(cond)] *)
Definition assert (cond : bool) (msg : option string) : completion unit :=
  if cond then Normal tt else Throw (AssertionError msg).

(** ToBoolean, the test of [if (v)] and [!v]. *)
Definition truthy (v : JsVal) : bool :=
  match v with
  | JUndefined | JNull => false
  | JBool b => b
  | JNum n => negb (n =? 0)%Z
  | JStr s => negb (String.eqb s "")
  | JArr _ | JObj _ => true
  end.

(** [v !== undefined] *)
Definition isDefined (v : JsVal) : bool :=
  match v with JUndefined => false | _ => true end.

(** [a !== b] on two values that are each a string (boolean, number) or
    undefined; [None] is undefined. *)
Definition strictNe {A} `{EqDecision A} (a b : option A) : bool :=
  bool_decide (a <> b).

(** [a === b], likewise. *)
Definition strictEq {A} `{EqDecision A} (a b : option A) : bool :=
  bool_decide (a = b).

(* ------------------------------------------------------------------ *)
(** ** MoneroUtils.paymentIdsEqual                                     *)
(* ------------------------------------------------------------------ *)

(** [s[i]]: the character at index [i], undefined past the end. *)
Definition charAt (s : string) (i : nat) : option ascii := String.get i s.

(** One pass through the body of the [for] loop; [true] when one of its
    three [return false] statements fires. *)
Definition paymentIdsDiffer (paymentId1 paymentId2 : string) (i : nat) : bool :=
  if (i <? String.length paymentId1)%nat && (i <? String.length paymentId2)%nat
     && strictNe (charAt paymentId1 i) (charAt paymentId2 i) then true
  else if (String.length paymentId1 <=? i)%nat
          && strictNe (charAt paymentId2 i) (Some "0"%char) then true
  else if (String.length paymentId2 <=? i)%nat
          && strictNe (charAt paymentId1 i) (Some "0"%char) then true
  else false.

(** [for (let i = ...; i < maxLength; i++)] with [todo] iterations left. *)
Fixpoint paymentIdsEqual_from (todo i : nat) (paymentId1 paymentId2 : string) : bool :=
  match todo with
  | O => true
  | S todo' =>
      if paymentIdsDiffer paymentId1 paymentId2 i then false
      else paymentIdsEqual_from todo' (S i) paymentId1 paymentId2
  end.

Definition paymentIdsEqual (paymentId1 paymentId2 : string) : bool :=
  let maxLength := Nat.max (String.length paymentId1) (String.length paymentId2) in
  paymentIdsEqual_from maxLength 0 paymentId1 paymentId2.

(** The strings of the documented example. *)
Definition zeros48 : string := "000000000000000000000000000000000000000000000000".
Definition pid_short : string := "03284e41c342f032".
Definition pid_padded : string := pid_short +:+ zeros48.
Definition pid_other : string := "03284e41c342f033" +:+ zeros48.

(* ------------------------------------------------------------------ *)
(** ** MoneroUtils.mergeTx                                             *)
(* ------------------------------------------------------------------ *)

(** Transactions are objects: the array [txs] holds references, and
    [aTx.merge(tx)] changes the object a reference points to.  A heap
    maps each reference to the state of its object; a reference the heap
    does not bind stands for a slot holding [undefined]. *)
Definition ref := nat.

Section MergeTx.
(** Class [MoneroTx] is not among the sources.  Its state, its getter
    and its [merge] are taken as given: [merge h aTx tx] is the heap
    after [aTx.merge(tx)], with the error it threw if it did. *)
Context {MoneroTx : Type}.
Variable getHash : MoneroTx -> option string.
Variable merge : gmap ref MoneroTx -> ref -> ref -> gmap ref MoneroTx * option JsError.

(** The [for (let aTx of txs)] loop.  [None]: the loop ran to its end
    without returning; [Some (h, e)]: it returned (or threw [e]) inside
    the body, leaving heap [h].  Calling [getHash] on [undefined]
    throws a TypeError. *)
Fixpoint mergeTx_loop (h : gmap ref MoneroTx) (txs : list ref) (tx : ref)
    : option (gmap ref MoneroTx * option JsError) :=
  match txs with
  | [] => None
  | aTx :: txs' =>
      match h !! aTx with
      | None => Some (h, Some TypeError)
      | Some a =>
          match h !! tx with
          | None => Some (h, Some TypeError)
          | Some t =>
              if strictEq (getHash a) (getHash t)
              then Some (merge h aTx tx)
              else mergeTx_loop h txs' tx
          end
      end
  end.

(** The heap, the array and the error thrown, if any, when the call
    ends. *)
Definition mergeTx (h : gmap ref MoneroTx) (txs : list ref) (tx : ref)
    : gmap ref MoneroTx * list ref * option JsError :=
  match mergeTx_loop h txs tx with
  | Some (h', e) => (h', txs, e)
  | None => (h, txs ++ [tx], None)
  end.
End MergeTx.

(* ------------------------------------------------------------------ *)
(** ** The provider-backed operations of MoneroUtils                   *)
(* ------------------------------------------------------------------ *)

(** A [Uint8Array]: [length] bytes of an [ArrayBuffer], from
    [byteOffset] on.  An array made from bytes of its own has
    [byteOffset] 0 and the length of its buffer; an array cut out of a
    larger buffer (a [subarray], a pooled [Buffer]) has not. *)
Module Uint8Array.
Record t := {
  buffer : list Byte.byte;
  byteOffset : nat;
  length : nat
}.

Definition BYTES_PER_ELEMENT : nat := 1.

(** [new Uint8Array(buffer)]: the whole of the buffer. *)
Definition of_buffer (buffer : list Byte.byte) : t :=
  {| buffer := buffer; byteOffset := 0; length := List.length buffer |}.

(** [new Uint8Array(buffer, byteOffset, length)]: a RangeError unless
    the window lies within the buffer. *)
Definition view (buffer : list Byte.byte) (byteOffset length : nat) : completion t :=
  if (byteOffset + length <=? List.length buffer)%nat
  then Normal {| buffer := buffer; byteOffset := byteOffset; length := length |}
  else Throw RangeError.

(** The elements of the array. *)
Definition elements (a : t) : list Byte.byte :=
  take (length a) (drop (byteOffset a) (buffer a)).

(** [target.set(source)]: a RangeError when the source has more
    elements than the target; otherwise the elements of the source are
    written into the target's buffer from the target's offset on.  The
    result is that buffer after the write. *)
Definition set (target source : t) : completion (list Byte.byte) :=
  if (length target <? length source)%nat then Throw RangeError
  else Normal (take (byteOffset target) (buffer target)
               ++ elements source
               ++ drop (byteOffset target + length source) (buffer target)).
End Uint8Array.

(** The module [LibraryUtils.getWasmModule()] returns once loaded:
    [HEAPU8] is its memory, [_malloc] its allocator, and a conversion
    is a function of the memory it finds and of the string it is
    called with.  ([_free] returns nothing a caller reads.)
    [malloc_binary_from_json] stands for the call together with the
    reading of its answer from the memory, lines 217 to 234. *)
Record WasmModule := {
  validate_address : string -> JsVal -> string;
  malloc_binary_from_json : JsVal -> completion (list Byte.byte);
  HEAPU8 : list Byte.byte;
  _malloc : nat -> nat;
  binary_to_json : list Byte.byte -> string -> string;
  binary_blocks_to_json : list Byte.byte -> string -> string
}.

(** What [JSON.parse(json_str)] yields in [binaryBlocksToJson]: "arrays
    of block and tx strings"; an entry of [txs] that is null or missing
    is [None]. *)
Record BlocksJson := {
  json_blocks : list string;
  json_txs : list (option (list string))
}.

(** The object [binaryBlocksToJson] returns, after both replacements. *)
Record BlocksResult := {
  blocks : list JsVal;
  txs : list (list JsVal)
}.

(** [typeof v] *)
Definition typeOf (v : JsVal) : string :=
  match v with
  | JUndefined => "undefined"
  | JBool _ => "boolean"
  | JNum _ => "number"
  | JStr _ => "string"
  | JNull | JArr _ | JObj _ => "object"
  end.

(** [s.replace(pat, rep)] for a string pattern: the first occurrence of
    [pat] gives way to [rep], a string without occurrence is returned as
    it is.  ([rep] is taken literally; the source's replacement has no
    [$].) *)
Fixpoint replace (pat rep s : string) : string :=
  if String.prefix pat s
  then rep +:+ String.substring (String.length pat) (String.length s - String.length pat) s
  else match s with
       | EmptyString => EmptyString
       | String c s' => String c (replace pat rep s')
       end.

Definition wasmNotLoaded : string :=
  "WASM module is not loaded; call 'await LibraryUtils.loadKeysModule()' to load".

(** [MoneroError(msg)], the class called as a function.  MoneroError.js
    is outside the sources; the repository declares its types with
    [class], MoneroDaemon.js builds every instance of this one with
    [new], and a class called without [new] raises a TypeError before
    its constructor runs. *)
Definition callMoneroError (msg : string) : completion JsError :=
  Throw TypeError.

(** [throw MoneroError(msg)]: the operand is evaluated, then thrown. *)
Definition throwMoneroError {A} (msg : string) : completion A :=
  match callMoneroError msg with
  | Normal e => Throw e
  | Throw e => Throw e
  end.

(** The double quote. *)
Definition dquote : string := String "034"%char EmptyString.

(** [JSON.stringify({ ptr: ptr, length: length })] *)
Definition stringify_binMemInfo (ptr length : nat) : string :=
  "{" +:+ dquote +:+ "ptr" +:+ dquote +:+ ":" +:+ pretty ptr
  +:+ "," +:+ dquote +:+ "length" +:+ dquote +:+ ":" +:+ pretty length +:+ "}".

(** Lines 249 to 257 of [binaryToJson], and the same statements at
    lines 281 to 289 of [binaryBlocksToJson]: a block of the array's
    length is allocated in the module's memory, the array's whole
    buffer is written to it, and the block's address and the array's
    length are put in a string.  The result is the memory after the
    write, and that string. *)
Definition toHeap (m : WasmModule) (uint8arr : Uint8Array.t)
    : completion (list Byte.byte * string) :=
  let ptr := _malloc m (Uint8Array.length uint8arr * Uint8Array.BYTES_PER_ELEMENT) in
  heap ← Uint8Array.view (HEAPU8 m) ptr
           (Uint8Array.length uint8arr * Uint8Array.BYTES_PER_ELEMENT);
  (if negb (ptr =? Uint8Array.byteOffset heap)%nat
   then Throw (Error "Memory ptr !== heap.byteOffset")
   else Normal tt);;
  memory ← Uint8Array.set heap (Uint8Array.of_buffer (Uint8Array.buffer uint8arr));
  let binMemInfo := stringify_binMemInfo ptr (Uint8Array.length uint8arr) in
  Normal (memory, binMemInfo).

Section Provider.
(** Taken as given, being outside the sources: [GenUtils.isBase58],
    [MoneroNetworkType.validate] (which returns or throws) and the
    runtime's [JSON.parse], once at the type of the batched response
    and once for any other text. *)
Variable isBase58 : string -> bool.
Variable validateNetworkType : JsVal -> completion unit.
Variable JSON_parse : string -> completion JsVal.
Variable JSON_parse_blocks : string -> completion BlocksJson.

(** [wasm] is what [LibraryUtils.getWasmModule()] returns: [None] for
    [undefined], before the module is loaded. *)
Definition validateAddress (wasm : option WasmModule) (address networkType : JsVal)
    : completion unit :=
  assert (String.eqb (typeOf address) "string") (Some "Address is not string");;
  match address with
  | JStr address =>
      assert (0 <? String.length address)%nat (Some "Address is empty");;
      assert (isBase58 address) (Some "Address is not base 58");;
      validateNetworkType networkType;;
      match wasm with
      | None => throwMoneroError wasmNotLoaded
      | Some m =>
          let errMsg := validate_address m address networkType in
          if truthy (JStr errMsg) then Throw (Error errMsg) else Normal tt
      end
  | _ => Normal tt (* not reached: the first assertion has thrown *)
  end.

(** The second parameter is not passed on: [validateAddress(address)]
    runs with [networkType] undefined. *)
Definition isValidAddress (wasm : option WasmModule) (address networkType : JsVal) : bool :=
  match validateAddress wasm address JUndefined with
  | Normal _ => true
  | Throw _ => false
  end.

Definition jsonToBinary (wasm : option WasmModule) (json : JsVal)
    : completion (list Byte.byte) :=
  match wasm with
  | None => throwMoneroError wasmNotLoaded
  | Some m => malloc_binary_from_json m json
  end.

Definition binaryToJson (wasm : option WasmModule) (uint8arr : Uint8Array.t)
    : completion JsVal :=
  match wasm with
  | None => throwMoneroError wasmNotLoaded
  | Some m =>
      '(memory, binMemInfo) ← toHeap m uint8arr;
      let ret_string := binary_to_json m memory binMemInfo in
      JSON_parse ret_string
  end.

Definition binaryBlocksToJson (wasm : option WasmModule) (uint8arr : Uint8Array.t)
    : completion BlocksResult :=
  match wasm with
  | None => throwMoneroError wasmNotLoaded
  | Some m =>
      '(memory, binMemInfo) ← toHeap m uint8arr;
      let json_str := binary_blocks_to_json m memory binMemInfo in
      json ← JSON_parse_blocks json_str;
      blocks' ← mapC (fun blockStr => JSON_parse blockStr) (json_blocks json);
      txs' ← mapC (fun txs =>
                     match txs with
                     | Some txs =>
                         mapC (fun tx => JSON_parse (replace "," "{" tx +:+ "}")) txs
                     | None => Normal []
                     end) (json_txs json);
      Normal {| blocks := blocks'; txs := txs' |}
  end.
End Provider.

(* ------------------------------------------------------------------ *)
(** ** MoneroTxFilter: the entities it reads                           *)
(* ------------------------------------------------------------------ *)

(** [o !== undefined] for a field that is a value of its type or
    undefined. *)
Definition defined {A} (o : option A) : bool :=
  match o with Some _ => true | None => false end.

(** A block header, as far as the filter reads it: [getHeight()]. *)
Record MoneroBlockHeader := { headerHeight : option Z }.

(** A block: [getHeader()]. *)
Record MoneroBlock := { getHeader : option MoneroBlockHeader }.

Section TxFilter.
(** Classes [MoneroTransfer] and [MoneroTransferFilter] are not among
    the sources: their instances and the nested filter's
    [meetsCriteria] are taken as given. *)
Variables MoneroTransfer MoneroTransferFilter : Type.
Variable transferMeetsCriteria : MoneroTransferFilter -> MoneroTransfer -> bool.

(** A wallet transaction, with the getters [meetsCriteria] calls on
    it; [None] is undefined. *)
Record MoneroTxWallet := {
  getId : option string;
  getPaymentId : option string;
  getIsConfirmed : option bool;
  getInTxPool : option bool;
  getDoNotRelay : option bool;
  getIsRelayed : option bool;
  getIsFailed : option bool;
  getIsCoinbase : option bool;
  getOutgoingTransfer : option MoneroTransfer;
  getIncomingTransfers : option (list MoneroTransfer);
  getBlock : option MoneroBlock
}.

(** The filter with every field of its declared type or undefined. *)
Record MoneroTxFilter := {
  getTx : option MoneroTxWallet;
  getTransferFilter : option MoneroTransferFilter;
  getTxIds : option (list string);
  getHasPaymentId : option bool;
  getPaymentIds : option (list string);
  getHeight : option Z;
  getMinHeight : option Z;
  getMaxHeight : option Z;
  getHasOutgoingTransfer : option bool;
  getHasIncomingTransfers : option bool
}.

(** *** The clauses of [meetsCriteria], in the order of the source.
    Each [..._rejects] is [true] when a [return false] of its block
    fires. *)

(** "filter on tx": the eight comparisons against the template. *)
Definition template_rejects (t tx : MoneroTxWallet) : bool :=
  if defined (getId t) && strictNe (getId t) (getId tx) then true
  else if defined (getPaymentId t) && strictNe (getPaymentId t) (getPaymentId tx) then true
  else if defined (getIsConfirmed t) && strictNe (getIsConfirmed t) (getIsConfirmed tx) then true
  else if defined (getInTxPool t) && strictNe (getInTxPool t) (getInTxPool tx) then true
  else if defined (getDoNotRelay t) && strictNe (getDoNotRelay t) (getDoNotRelay tx) then true
  else if defined (getIsRelayed t) && strictNe (getIsRelayed t) (getIsRelayed tx) then true
  else if defined (getIsFailed t) && strictNe (getIsFailed t) (getIsFailed tx) then true
  else if defined (getIsCoinbase t) && strictNe (getIsCoinbase t) (getIsCoinbase tx) then true
  else false.

(** "at least one transfer must meet transfer filter if defined": the
    value of [matchFound] after the [if]/[else if]. *)
Definition matchFound (tf : MoneroTransferFilter) (tx : MoneroTxWallet) : bool :=
  if match getOutgoingTransfer tx with
     | Some outgoing => transferMeetsCriteria tf outgoing
     | None => false
     end
  then true
  else match getIncomingTransfers tx with
       | Some incoming => existsb (transferMeetsCriteria tf) incoming
       | None => false
       end.

(** "filter on having a payment id" *)
Definition hasPaymentId_rejects (has : bool) (tx : MoneroTxWallet) : bool :=
  if has && negb (defined (getPaymentId tx)) then true
  else if negb has && defined (getPaymentId tx) then true
  else false.

(** "filter on having an outgoing transfer" *)
Definition hasOutgoingTransfer_rejects (has : bool) (tx : MoneroTxWallet) : bool :=
  if has && negb (defined (getOutgoingTransfer tx)) then true
  else if negb has && defined (getOutgoingTransfer tx) then true
  else false.

(** "filter on having incoming transfers" *)
Definition hasIncomingTransfers_rejects (has : bool) (tx : MoneroTxWallet) : bool :=
  if has && match getIncomingTransfers tx with
            | None => true
            | Some incoming => (length incoming =? 0)%nat
            end then true
  else if negb has && match getIncomingTransfers tx with
                      | None => false
                      | Some incoming => (0 <? length incoming)%nat
                      end then true
  else false.

(** [let height = ...]: the height of the candidate's block header,
    undefined without a block or without a header. *)
Definition heightOf (tx : MoneroTxWallet) : option Z :=
  match getBlock tx with
  | None => None
  | Some block =>
      match getHeader block with
      | None => None
      | Some header => headerHeight header
      end
  end.

(** [ids.includes(x)] on an array of strings; [x] may be undefined. *)
Definition includes (ids : list string) (x : option string) : bool :=
  match x with
  | Some s => existsb (String.eqb s) ids
  | None => false
  end.

(** [height < min], having checked [height === undefined] first. *)
Definition minHeight_rejects (min : Z) (height : option Z) : bool :=
  match height with
  | None => true
  | Some h => (h <? min)%Z
  end.

Definition maxHeight_rejects (max : Z) (height : option Z) : bool :=
  match height with
  | None => true
  | Some h => (h >? max)%Z
  end.

(** [meetsCriteria(tx)].  The candidate is a [MoneroTxWallet], so the
    assertion holds, and the filter is not one, so [this === tx] is
    false. *)
Definition meetsCriteria (this : MoneroTxFilter) (tx : MoneroTxWallet) : bool :=
  if match getTx this with
     | Some t => template_rejects t tx
     | None => false
     end then false
  else if match getTransferFilter this with
          | Some tf => negb (matchFound tf tx)
          | None => false
          end then false
  else if match getHasPaymentId this with
          | Some has => hasPaymentId_rejects has tx
          | None => false
          end then false
  else if match getHasOutgoingTransfer this with
          | Some has => hasOutgoingTransfer_rejects has tx
          | None => false
          end then false
  else if match getHasIncomingTransfers this with
          | Some has => hasIncomingTransfers_rejects has tx
          | None => false
          end then false
  else
    let height := heightOf tx in
    if match getTxIds this with
       | Some ids => negb (includes ids (getId tx))
       | None => false
       end then false
    else if match getPaymentIds this with
            | Some ids => negb (includes ids (getPaymentId tx))
            | None => false
            end then false
    else if defined (getHeight this) && strictNe height (getHeight this) then false
    else if match getMinHeight this with
            | Some min => minHeight_rejects min height
            | None => false
            end then false
    else if match getMaxHeight this with
            | Some max => maxHeight_rejects max height
            | None => false
            end then false
    else true.

(** *** The filter as the constructor and the setters leave it

    [this.state] is a plain object: nothing fixes the type of what a
    caller stores in it.  [state_tx] and [state_transferFilter] hold an
    instance of their class or any plain value, the other fields any
    plain value. *)
Inductive TxArg :=
  | TxInstance (t : MoneroTxWallet)
  | TxOther (v : JsVal).

Inductive TransferFilterArg :=
  | FilterInstance (f : MoneroTransferFilter)
  | FilterOther (v : JsVal).

Record FilterState := {
  state_tx : TxArg;
  state_transferFilter : TransferFilterArg;
  state_txIds : JsVal;
  state_hasPaymentId : JsVal;
  state_paymentIds : JsVal;
  state_height : JsVal;
  state_minHeight : JsVal;
  state_maxHeight : JsVal;
  state_hasOutgoingTransfer : JsVal;
  state_hasIncomingTransfers : JsVal
}.

Definition set_state_tx (state : FilterState) (x : TxArg) : FilterState :=
  {| state_tx := x;
     state_transferFilter := state_transferFilter state;
     state_txIds := state_txIds state;
     state_hasPaymentId := state_hasPaymentId state;
     state_paymentIds := state_paymentIds state;
     state_height := state_height state;
     state_minHeight := state_minHeight state;
     state_maxHeight := state_maxHeight state;
     state_hasOutgoingTransfer := state_hasOutgoingTransfer state;
     state_hasIncomingTransfers := state_hasIncomingTransfers state |}.

Definition set_state_transferFilter (state : FilterState) (x : TransferFilterArg)
    : FilterState :=
  {| state_tx := state_tx state;
     state_transferFilter := x;
     state_txIds := state_txIds state;
     state_hasPaymentId := state_hasPaymentId state;
     state_paymentIds := state_paymentIds state;
     state_height := state_height state;
     state_minHeight := state_minHeight state;
     state_maxHeight := state_maxHeight state;
     state_hasOutgoingTransfer := state_hasOutgoingTransfer state;
     state_hasIncomingTransfers := state_hasIncomingTransfers state |}.

(** [!state.tx] as a condition: an instance is an object, hence
    truthy. *)
Definition txArg_truthy (x : TxArg) : bool :=
  match x with TxInstance _ => true | TxOther v => truthy v end.

(** The constructors of [MoneroTxWallet] and [MoneroTransferFilter]
    are outside the sources: [new MoneroTxWallet(state)] on the whole
    state, [new MoneroTxWallet(state.tx)] and
    [new MoneroTransferFilter(state.transferFilter)] on a plain value;
    each returns an instance or throws. *)
Variable newTxWalletFromState : FilterState -> completion MoneroTxWallet.
Variable newTxWallet : JsVal -> completion MoneroTxWallet.
Variable newTransferFilter : JsVal -> completion MoneroTransferFilter.

(** [constructor(state)]: the value of [this.state] when it returns.
    [Object.assign({}, state)] copies the fields; [super()] is the
    constructor of [Filter], which has no state. *)
Definition constructor (state : FilterState) : completion FilterState :=
  (* initialize tx if not given *)
  state ← (if negb (txArg_truthy (state_tx state))
           then t ← newTxWalletFromState state;
                Normal (set_state_tx state (TxInstance t))
           else Normal state);
  (* deserialize if necessary *)
  state ← (match state_transferFilter state with
           | FilterOther v =>
               if truthy v
               then f ← newTransferFilter v;
                    Normal (set_state_transferFilter state (FilterInstance f))
               else Normal state
           | FilterInstance _ => Normal state
           end);
  match state_tx state with
  | TxOther v => t ← newTxWallet v; Normal (set_state_tx state (TxInstance t))
  | TxInstance _ => Normal state
  end.

(** *** [meetsCriteria] on any filter state *)

(** A method call on a plain value that has no such method
    ([getId], [meetsCriteria], and [includes] on other than an array
    or a string) is a TypeError.  With a truthy non-instance template
    the first call, [this.getTx().getId()], throws. *)
Definition template_rejects_untyped (x : TxArg) (tx : MoneroTxWallet) : completion bool :=
  match x with
  | TxInstance t => Normal (template_rejects t tx)
  | TxOther v => if truthy v then Throw TypeError else Normal false
  end.

(** With a truthy non-instance nested filter, the first
    [this.getTransferFilter().meetsCriteria(..)] reached throws; none
    is reached when the candidate has no transfer at all. *)
Definition transfer_rejects_untyped (x : TransferFilterArg) (tx : MoneroTxWallet)
    : completion bool :=
  match x with
  | FilterInstance tf => Normal (negb (matchFound tf tx))
  | FilterOther v =>
      if truthy v then
        match getOutgoingTransfer tx with
        | Some _ => Throw TypeError
        | None =>
            match getIncomingTransfers tx with
            | Some (_ :: _) => Throw TypeError
            | _ => Normal true
            end
        end
      else Normal false
  end.

(** SameValueZero of a string or undefined with an array element. *)
Definition sameValueZero (x : option string) (e : JsVal) : bool :=
  match x, e with
  | None, JUndefined => true
  | Some s, JStr s' => String.eqb s s'
  | _, _ => false
  end.

(** ToString of a string or undefined. *)
Definition toString (x : option string) : string :=
  match x with Some s => s | None => "undefined" end.

(** [v.includes(x)]: [Array.prototype.includes] on an array,
    [String.prototype.includes] (a substring test) on a string. *)
Definition includes_untyped (v : JsVal) (x : option string) : completion bool :=
  match v with
  | JArr elems => Normal (existsb (sameValueZero x) elems)
  | JStr s => Normal (defined (String.index 0 (toString x) s))
  | _ => Throw TypeError
  end.

(** [height !== v] for a height that is a number or undefined. *)
Definition heightNe (height : option Z) (v : JsVal) : bool :=
  match height, v with
  | Some h, JNum n => negb (h =? n)%Z
  | None, JUndefined => false
  | _, _ => true
  end.

(** [h < v] and [h > v] for a number [h]: [v] is converted to a number,
    undefined to NaN (every comparison false), null to 0, a boolean to
    0 or 1.  For a string, an array or an object the conversion goes
    through the runtime's ToPrimitive and number grammar: taken as
    given. *)
Variable lessThan_coerced : Z -> JsVal -> completion bool.
Variable greaterThan_coerced : Z -> JsVal -> completion bool.

Definition lessThan (h : Z) (v : JsVal) : completion bool :=
  match v with
  | JNum n => Normal (h <? n)%Z
  | JUndefined => Normal false
  | JNull => Normal (h <? 0)%Z
  | JBool b => Normal (h <? (if b then 1 else 0))%Z
  | JStr _ | JArr _ | JObj _ => lessThan_coerced h v
  end.

Definition greaterThan (h : Z) (v : JsVal) : completion bool :=
  match v with
  | JNum n => Normal (h >? n)%Z
  | JUndefined => Normal false
  | JNull => Normal (h >? 0)%Z
  | JBool b => Normal (h >? (if b then 1 else 0))%Z
  | JStr _ | JArr _ | JObj _ => greaterThan_coerced h v
  end.

(** The clauses, once the candidate is known to be a [MoneroTxWallet]. *)
Definition meetsCriteria_clauses (this : FilterState) (tx : MoneroTxWallet)
    : completion bool :=
  r ← template_rejects_untyped (state_tx this) tx;
  if r : bool then Normal false else
  r ← transfer_rejects_untyped (state_transferFilter this) tx;
  if r : bool then Normal false else
  if isDefined (state_hasPaymentId this)
     && hasPaymentId_rejects (truthy (state_hasPaymentId this)) tx then Normal false else
  if isDefined (state_hasOutgoingTransfer this)
     && hasOutgoingTransfer_rejects (truthy (state_hasOutgoingTransfer this)) tx
  then Normal false else
  if isDefined (state_hasIncomingTransfers this)
     && hasIncomingTransfers_rejects (truthy (state_hasIncomingTransfers this)) tx
  then Normal false else
  let height := heightOf tx in
  r ← (if isDefined (state_txIds this)
       then b ← includes_untyped (state_txIds this) (getId tx); Normal (negb b)
       else Normal false);
  if r : bool then Normal false else
  r ← (if isDefined (state_paymentIds this)
       then b ← includes_untyped (state_paymentIds this) (getPaymentId tx); Normal (negb b)
       else Normal false);
  if r : bool then Normal false else
  if isDefined (state_height this) && heightNe height (state_height this)
  then Normal false else
  r ← (if isDefined (state_minHeight this)
       then match height with
            | None => Normal true
            | Some h => lessThan h (state_minHeight this)
            end
       else Normal false);
  if r : bool then Normal false else
  r ← (if isDefined (state_maxHeight this)
       then match height with
            | None => Normal true
            | Some h => greaterThan h (state_maxHeight this)
            end
       else Normal false);
  if r : bool then Normal false else
  Normal true.

(** [tx instanceof MoneroTxWallet] *)
Definition isTxWallet (x : TxArg) : bool :=
  match x with TxInstance _ => true | TxOther _ => false end.

(** [meetsCriteria(tx)] for any argument.  The filter is not a
    [MoneroTxWallet], so past the assertion [this === tx] is false. *)
Definition meetsCriteria_untyped (this : FilterState) (tx : TxArg) : completion bool :=
  assert (isTxWallet tx) None;;
  match tx with
  | TxInstance tx => meetsCriteria_clauses this tx
  | TxOther _ => Normal false (* not reached: the assertion has thrown *)
  end.

(** The state of a filter whose fields have their declared types. *)
Definition optJ {A} (f : A -> JsVal) (o : option A) : JsVal :=
  match o with Some a => f a | None => JUndefined end.

Definition stateOf (F : MoneroTxFilter) : FilterState :=
  {| state_tx := match getTx F with
                 | Some t => TxInstance t
                 | None => TxOther JUndefined
                 end;
     state_transferFilter := match getTransferFilter F with
                             | Some tf => FilterInstance tf
                             | None => FilterOther JUndefined
                             end;
     state_txIds := optJ (fun ids => JArr (map JStr ids)) (getTxIds F);
     state_hasPaymentId := optJ JBool (getHasPaymentId F);
     state_paymentIds := optJ (fun ids => JArr (map JStr ids)) (getPaymentIds F);
     state_height := optJ JNum (getHeight F);
     state_minHeight := optJ JNum (getMinHeight F);
     state_maxHeight := optJ JNum (getMaxHeight F);
     state_hasOutgoingTransfer := optJ JBool (getHasOutgoingTransfer F);
     state_hasIncomingTransfers := optJ JBool (getHasIncomingTransfers F) |}.

(** A state is well formed when it is the state of such a filter. *)
Definition wellFormed (state : FilterState) : Prop :=
  exists F, state = stateOf F.
End TxFilter.

Arguments getId {_} _.
Arguments getPaymentId {_} _.
Arguments getIsConfirmed {_} _.
Arguments getInTxPool {_} _.
Arguments getDoNotRelay {_} _.
Arguments getIsRelayed {_} _.
Arguments getIsFailed {_} _.
Arguments getIsCoinbase {_} _.
Arguments getOutgoingTransfer {_} _.
Arguments getIncomingTransfers {_} _.
Arguments getBlock {_} _.
Arguments getTx {_ _} _.
Arguments getTransferFilter {_ _} _.
Arguments getTxIds {_ _} _.
Arguments getHasPaymentId {_ _} _.
Arguments getPaymentIds {_ _} _.
Arguments getHeight {_ _} _.
Arguments getMinHeight {_ _} _.
Arguments getMaxHeight {_ _} _.
Arguments getHasOutgoingTransfer {_ _} _.
Arguments getHasIncomingTransfers {_ _} _.
Arguments template_rejects {_} _ _.
Arguments matchFound {_ _} _ _ _.
Arguments hasPaymentId_rejects {_} _ _.
Arguments hasOutgoingTransfer_rejects {_} _ _.
Arguments hasIncomingTransfers_rejects {_} _ _.
Arguments heightOf {_} _.
Arguments meetsCriteria {_ _} _ _ _.
Arguments TxInstance {_} _.
Arguments TxOther {_} _.
Arguments FilterInstance {_} _.
Arguments FilterOther {_} _.
Arguments state_tx {_ _} _.
Arguments state_transferFilter {_ _} _.
Arguments state_txIds {_ _} _.
Arguments state_hasPaymentId {_ _} _.
Arguments state_paymentIds {_ _} _.
Arguments state_height {_ _} _.
Arguments state_minHeight {_ _} _.
Arguments state_maxHeight {_ _} _.
Arguments state_hasOutgoingTransfer {_ _} _.
Arguments state_hasIncomingTransfers {_ _} _.
Arguments set_state_tx {_ _} _ _.
Arguments set_state_transferFilter {_ _} _ _.
Arguments txArg_truthy {_} _.
Arguments constructor {_ _} _ _ _ _.
Arguments template_rejects_untyped {_} _ _.
Arguments transfer_rejects_untyped {_ _} _ _ _.
Arguments meetsCriteria_clauses {_ _} _ _ _ _ _.
Arguments isTxWallet {_} _.
Arguments meetsCriteria_untyped {_ _} _ _ _ _ _.
Arguments stateOf {_ _} _.
Arguments wellFormed {_ _} _.

(* ------------------------------------------------------------------ *)
(** ** Notions used in the statements                                  *)
(* ------------------------------------------------------------------ *)

(** A constraint set on the first filter is set identically on the
    second; an unset one allows anything there. *)
Definition setIdentically {A} (c1 c2 : option A) : Prop :=
  c1 = None \/ c1 = c2.

Section FilterNotions.
Context {MoneroTransfer MoneroTransferFilter : Type}.

(** A field of the template, undefined when there is no template. *)
Definition templateField {A} (get : MoneroTxWallet MoneroTransfer -> option A)
    (F : MoneroTxFilter MoneroTransfer MoneroTransferFilter) : option A :=
  match getTx F with Some t => get t | None => None end.

(** The constraints of [F1] are among those of [F2]: the template
    fields the filter compares, the nested transfer filter, and the
    presence, membership and height clauses. *)
Definition constraintsContained
    (F1 F2 : MoneroTxFilter MoneroTransfer MoneroTransferFilter) : Prop :=
  setIdentically (templateField getId F1) (templateField getId F2)
  /\ setIdentically (templateField getPaymentId F1) (templateField getPaymentId F2)
  /\ setIdentically (templateField getIsConfirmed F1) (templateField getIsConfirmed F2)
  /\ setIdentically (templateField getInTxPool F1) (templateField getInTxPool F2)
  /\ setIdentically (templateField getDoNotRelay F1) (templateField getDoNotRelay F2)
  /\ setIdentically (templateField getIsRelayed F1) (templateField getIsRelayed F2)
  /\ setIdentically (templateField getIsFailed F1) (templateField getIsFailed F2)
  /\ setIdentically (templateField getIsCoinbase F1) (templateField getIsCoinbase F2)
  /\ setIdentically (getTransferFilter F1) (getTransferFilter F2)
  /\ setIdentically (getHasPaymentId F1) (getHasPaymentId F2)
  /\ setIdentically (getHasOutgoingTransfer F1) (getHasOutgoingTransfer F2)
  /\ setIdentically (getHasIncomingTransfers F1) (getHasIncomingTransfers F2)
  /\ setIdentically (getTxIds F1) (getTxIds F2)
  /\ setIdentically (getPaymentIds F1) (getPaymentIds F2)
  /\ setIdentically (getHeight F1) (getHeight F2)
  /\ setIdentically (getMinHeight F1) (getMinHeight F2)
  /\ setIdentically (getMaxHeight F1) (getMaxHeight F2).

(** The template's value for each of the eight fields the filter
    compares is, when set, the candidate's value. *)
Definition templateAgrees (t tx : MoneroTxWallet MoneroTransfer) : Prop :=
  (forall v, getId t = Some v -> getId tx = Some v)
  /\ (forall v, getPaymentId t = Some v -> getPaymentId tx = Some v)
  /\ (forall v, getIsConfirmed t = Some v -> getIsConfirmed tx = Some v)
  /\ (forall v, getInTxPool t = Some v -> getInTxPool tx = Some v)
  /\ (forall v, getDoNotRelay t = Some v -> getDoNotRelay tx = Some v)
  /\ (forall v, getIsRelayed t = Some v -> getIsRelayed tx = Some v)
  /\ (forall v, getIsFailed t = Some v -> getIsFailed tx = Some v)
  /\ (forall v, getIsCoinbase t = Some v -> getIsCoinbase tx = Some v).

(** The filter with its template, or its nested transfer filter,
    taken away. *)
Definition withoutTx (F : MoneroTxFilter MoneroTransfer MoneroTransferFilter)
    : MoneroTxFilter MoneroTransfer MoneroTransferFilter :=
  {| getTx := None;
     getTransferFilter := getTransferFilter F;
     getTxIds := getTxIds F;
     getHasPaymentId := getHasPaymentId F;
     getPaymentIds := getPaymentIds F;
     getHeight := getHeight F;
     getMinHeight := getMinHeight F;
     getMaxHeight := getMaxHeight F;
     getHasOutgoingTransfer := getHasOutgoingTransfer F;
     getHasIncomingTransfers := getHasIncomingTransfers F |}.

Definition withoutTransferFilter (F : MoneroTxFilter MoneroTransfer MoneroTransferFilter)
    : MoneroTxFilter MoneroTransfer MoneroTransferFilter :=
  {| getTx := getTx F;
     getTransferFilter := None;
     getTxIds := getTxIds F;
     getHasPaymentId := getHasPaymentId F;
     getPaymentIds := getPaymentIds F;
     getHeight := getHeight F;
     getMinHeight := getMinHeight F;
     getMaxHeight := getMaxHeight F;
     getHasOutgoingTransfer := getHasOutgoingTransfer F;
     getHasIncomingTransfers := getHasIncomingTransfers F |}.

(** The transfers of a candidate: the outgoing one, if any, and the
    incoming ones, if any. *)
Definition transfersOf (tx : MoneroTxWallet MoneroTransfer) : list MoneroTransfer :=
  match getOutgoingTransfer tx with Some o => [o] | None => [] end
  ++ match getIncomingTransfers tx with Some l => l | None => [] end.

(** The candidate has no block, or a block without header. *)
Definition heightUnknown (tx : MoneroTxWallet MoneroTransfer) : Prop :=
  getBlock tx = None \/ exists block, getBlock tx = Some block /\ getHeader block = None.
End FilterNotions.

(** The array has a buffer of its own: it starts where the buffer
    starts and is as long. *)
Definition spansBuffer (uint8arr : Uint8Array.t) : Prop :=
  Uint8Array.byteOffset uint8arr = 0%nat
  /\ Uint8Array.length uint8arr = length (Uint8Array.buffer uint8arr).

(** The block the module allocates for [n] bytes lies within its
    memory. *)
Definition allocates (m : WasmModule) (n : nat) : Prop :=
  (_malloc m n + n <= length (HEAPU8 m))%nat.

(** The module's memory with [bytes] in the block allocated for them,
    and the string that names the block. *)
Definition memoryWith (m : WasmModule) (bytes : list Byte.byte) : list Byte.byte :=
  take (_malloc m (length bytes)) (HEAPU8 m)
  ++ bytes
  ++ drop (_malloc m (length bytes) + length bytes) (HEAPU8 m).

Definition binMemInfoOf (m : WasmModule) (bytes : list Byte.byte) : string :=
  stringify_binMemInfo (_malloc m (length bytes)) (length bytes).

(** What the module answers to [binary_blocks_to_json] for [bytes]. *)
Definition blocksText (m : WasmModule) (bytes : list Byte.byte) : string :=
  binary_blocks_to_json m (memoryWith m bytes) (binMemInfoOf m bytes).

(* ------------------------------------------------------------------ *)
(** ** Sample data                                                     *)
(* ------------------------------------------------------------------ *)

(** Transactions for [mergeTx]: a hash and a confirmation flag; the
    sample [merge] adopts the flag where the target has none. *)
Definition sample_getHash (t : option string * option bool) : option string := t.1.

Definition sample_merge (h : gmap ref (option string * option bool)) (aTx tx : ref)
    : gmap ref (option string * option bool) * option JsError :=
  match h !! aTx, h !! tx with
  | Some (hash, Some confirmed), Some _ => (h, None)
  | Some (hash, None), Some (_, confirmed) => (<[aTx := (hash, confirmed)]> h, None)
  | _, _ => (h, Some TypeError)
  end.

Definition sample_pooled : option string * option bool := (Some "bb", None).
Definition sample_confirmed : option string * option bool := (Some "bb", Some true).

Definition sample_heap : gmap ref (option string * option bool) :=
  <[0%nat := (Some "aa", None)]> (<[1%nat := sample_pooled]> (<[2%nat := sample_confirmed]> ∅)).

(** A provider and its surroundings. *)
Definition sample_isBase58 (s : string) : bool := true.

Definition sample_validateNetworkType (v : JsVal) : completion unit :=
  match v with
  | JNum 0 | JNum 1 | JNum 2 => Normal tt
  | _ => Throw (Error "Network type is invalid")
  end.

Definition sample_JSON_parse (s : string) : completion JsVal :=
  if String.eqb s "{}" then Normal (JObj [])
  else if String.eqb s "[]" then Normal (JArr [])
  else Throw SyntaxError.

(** Two responses: two blocks, the first with two transaction strings
    that are a comma, the second without transaction list; and no
    block, with one transaction string, the text of the empty object
    without its opening brace. *)
Definition sample_responseText : string :=
  "{" +:+ dquote +:+ "blocks" +:+ dquote +:+ ":["
  +:+ dquote +:+ "{}" +:+ dquote +:+ "," +:+ dquote +:+ "{}" +:+ dquote +:+ "],"
  +:+ dquote +:+ "txs" +:+ dquote +:+ ":[["
  +:+ dquote +:+ "," +:+ dquote +:+ "," +:+ dquote +:+ "," +:+ dquote +:+ "],null]}".

Definition sample_response : BlocksJson :=
  {| json_blocks := ["{}"; "{}"];
     json_txs := [Some [","; ","]; None] |}.

Definition sample_unbracedText : string :=
  "{" +:+ dquote +:+ "blocks" +:+ dquote +:+ ":[],"
  +:+ dquote +:+ "txs" +:+ dquote +:+ ":[[" +:+ dquote +:+ "}" +:+ dquote +:+ "]]}".

Definition sample_unbraced : BlocksJson :=
  {| json_blocks := [];
     json_txs := [Some ["}"]] |}.

Definition sample_JSON_parse_blocks (s : string) : completion BlocksJson :=
  if String.eqb s sample_responseText then Normal sample_response
  else if String.eqb s sample_unbracedText then Normal sample_unbraced
  else Throw SyntaxError.

(** A module with sixteen bytes of memory that allocates at address 4
    and answers by the first byte of the block. *)
Definition sample_wasm : WasmModule :=
  {| validate_address := fun _ _ => "";
     malloc_binary_from_json := fun _ => Normal [];
     HEAPU8 := replicate 16 Byte.x00;
     _malloc := fun _ => 4%nat;
     binary_to_json := fun _ _ => "{}";
     binary_blocks_to_json := fun memory _ =>
       match memory !! 4%nat with
       | Some Byte.x01 => sample_responseText
       | _ => sample_unbracedText
       end |}.

(** Two arrays with a buffer of their own, and the second byte of a
    buffer of two as an array. *)
Definition sample_uint8arr : Uint8Array.t :=
  Uint8Array.of_buffer [Byte.x01; Byte.x02].

Definition sample_unbracedArr : Uint8Array.t :=
  Uint8Array.of_buffer [Byte.x02; Byte.x01].

Definition sample_subarray : Uint8Array.t :=
  {| Uint8Array.buffer := [Byte.x01; Byte.x02];
     Uint8Array.byteOffset := 1;
     Uint8Array.length := 1 |}.

(** Transfers named by an account index, and a transfer filter that
    asks for one index. *)
Definition sample_transferMeetsCriteria (tf : nat) (transfer : nat) : bool :=
  (transfer =? tf)%nat.

Definition sample_emptyTx : MoneroTxWallet nat :=
  {| getId := None; getPaymentId := None; getIsConfirmed := None;
     getInTxPool := None; getDoNotRelay := None; getIsRelayed := None;
     getIsFailed := None; getIsCoinbase := None;
     getOutgoingTransfer := None; getIncomingTransfers := None;
     getBlock := None |}.

(** A template that sets nothing but a block. *)
Definition sample_blockTemplate : MoneroTxWallet nat :=
  {| getId := None; getPaymentId := None; getIsConfirmed := None;
     getInTxPool := None; getDoNotRelay := None; getIsRelayed := None;
     getIsFailed := None; getIsCoinbase := None;
     getOutgoingTransfer := None; getIncomingTransfers := None;
     getBlock := Some {| getHeader := Some {| headerHeight := Some 100%Z |} |} |}.

Definition sample_confirmedTemplate : MoneroTxWallet nat :=
  {| getId := None; getPaymentId := None; getIsConfirmed := Some true;
     getInTxPool := None; getDoNotRelay := None; getIsRelayed := None;
     getIsFailed := None; getIsCoinbase := None;
     getOutgoingTransfer := None; getIncomingTransfers := None;
     getBlock := None |}.

(** A confirmed candidate with a payment id and two incoming
    transfers. *)
Definition sample_tx : MoneroTxWallet nat :=
  {| getId := Some "aa"; getPaymentId := Some pid_short; getIsConfirmed := Some true;
     getInTxPool := Some false; getDoNotRelay := None; getIsRelayed := None;
     getIsFailed := Some false; getIsCoinbase := None;
     getOutgoingTransfer := None; getIncomingTransfers := Some [1%nat; 3%nat];
     getBlock := Some {| getHeader := Some {| headerHeight := Some 100%Z |} |} |}.

Definition sample_noFilter : MoneroTxFilter nat nat :=
  {| getTx := None; getTransferFilter := None; getTxIds := None;
     getHasPaymentId := None; getPaymentIds := None; getHeight := None;
     getMinHeight := None; getMaxHeight := None;
     getHasOutgoingTransfer := None; getHasIncomingTransfers := None |}.

Definition sample_blockFilter : MoneroTxFilter nat nat :=
  {| getTx := Some sample_blockTemplate; getTransferFilter := None; getTxIds := None;
     getHasPaymentId := None; getPaymentIds := None; getHeight := None;
     getMinHeight := None; getMaxHeight := None;
     getHasOutgoingTransfer := None; getHasIncomingTransfers := None |}.

Definition sample_idsFilter : MoneroTxFilter nat nat :=
  {| getTx := None; getTransferFilter := None; getTxIds := Some ["aa"; "cc"];
     getHasPaymentId := None; getPaymentIds := None; getHeight := None;
     getMinHeight := None; getMaxHeight := None;
     getHasOutgoingTransfer := None; getHasIncomingTransfers := None |}.

Definition sample_narrowFilter : MoneroTxFilter nat nat :=
  {| getTx := Some sample_confirmedTemplate; getTransferFilter := Some 3%nat;
     getTxIds := Some ["aa"; "cc"];
     getHasPaymentId := Some true; getPaymentIds := None; getHeight := None;
     getMinHeight := Some 0%Z; getMaxHeight := None;
     getHasOutgoingTransfer := None; getHasIncomingTransfers := None |}.

Definition sample_minHeightFilter : MoneroTxFilter nat nat :=
  {| getTx := None; getTransferFilter := None; getTxIds := None;
     getHasPaymentId := None; getPaymentIds := None; getHeight := None;
     getMinHeight := Some 0%Z; getMaxHeight := None;
     getHasOutgoingTransfer := None; getHasIncomingTransfers := None |}.

(** Constructors for the untyped state, and a state whose [txIds] is a
    number. *)
Definition sample_newTxWalletFromState (state : FilterState nat nat)
    : completion (MoneroTxWallet nat) := Normal sample_emptyTx.
Definition sample_newTxWallet (v : JsVal) : completion (MoneroTxWallet nat) :=
  Normal sample_emptyTx.
Definition sample_newTransferFilter (v : JsVal) : completion nat := Normal 0%nat.
Definition sample_coerced (h : Z) (v : JsVal) : completion bool := Normal false.

Definition sample_badState : FilterState nat nat :=
  {| state_tx := TxInstance sample_emptyTx;
     state_transferFilter := FilterOther JUndefined;
     state_txIds := JNum 5;
     state_hasPaymentId := JUndefined;
     state_paymentIds := JUndefined;
     state_height := JUndefined;
     state_minHeight := JUndefined;
     state_maxHeight := JUndefined;
     state_hasOutgoingTransfer := JUndefined;
     state_hasIncomingTransfers := JUndefined |}.

(** A state whose [txIds] is one string instead of an array of strings,
    and a candidate whose id is neither "aa" nor "bb". *)
Definition sample_stringIdsState : FilterState nat nat :=
  {| state_tx := TxInstance sample_emptyTx;
     state_transferFilter := FilterOther JUndefined;
     state_txIds := JStr "aabb";
     state_hasPaymentId := JUndefined;
     state_paymentIds := JUndefined;
     state_height := JUndefined;
     state_minHeight := JUndefined;
     state_maxHeight := JUndefined;
     state_hasOutgoingTransfer := JUndefined;
     state_hasIncomingTransfers := JUndefined |}.

Definition sample_abTx : MoneroTxWallet nat :=
  {| getId := Some "ab"; getPaymentId := None; getIsConfirmed := None;
     getInTxPool := None; getDoNotRelay := None; getIsRelayed := None;
     getIsFailed := None; getIsCoinbase := None;
     getOutgoingTransfer := None; getIncomingTransfers := None;
     getBlock := None |}.

(* ------------------------------------------------------------------ *)
(** ** MoneroUtils: the validators                                     *)
(* ------------------------------------------------------------------ *)

Definition NUM_MNEMONIC_WORDS : nat := 25.

(** [s.split(sep)] for a one-character separator: the pieces between
    the occurrences of [sep], one piece more than there are
    occurrences. *)
Fixpoint split (sep : ascii) (s : string) : list string :=
  match s with
  | EmptyString => [EmptyString]
  | String c s' =>
      if Ascii.eqb c sep then EmptyString :: split sep s'
      else match split sep s' with
           | w :: ws => String c w :: ws
           | [] => [String c EmptyString]
           end
  end.

(** How often a character occurs in a string. *)
Fixpoint occurrences (c : ascii) (s : string) : nat :=
  match s with
  | EmptyString => O
  | String x s' => (if Ascii.eqb x c then 1 else 0) + occurrences c s'
  end.

(** The text of the error for a phrase of [n] words. *)
Definition mnemonicWordsMessage (n : nat) : string :=
  "Mnemonic phrase is " +:+ pretty n +:+ " words but must be "
  +:+ pretty NUM_MNEMONIC_WORDS.

(** [validateMnemonic(mnemonic)].  [.split] exists on strings only: on
    any other truthy value the call is a TypeError. *)
Definition validateMnemonic (mnemonic : JsVal) : completion unit :=
  assert (truthy mnemonic) (Some "Mnemonic phrase is not initialized");;
  match mnemonic with
  | JStr mnemonic =>
      let words := split " " mnemonic in
      if negb (length words =? NUM_MNEMONIC_WORDS)%nat
      then Throw (Error (mnemonicWordsMessage (length words)))
      else Normal tt
  | _ => Throw TypeError
  end.

(** The body shared, word for word, by [validatePrivateViewKey],
    [validatePrivateSpendKey], [validatePublicViewKey] and
    [validatePublicSpendKey]. *)
Definition validateKey (key : JsVal) : completion unit :=
  assert (String.eqb (typeOf key) "string") None;;
  match key with
  | JStr key => assert (String.length key =? 64)%nat None
  | _ => Normal tt (* not reached: the first assertion has thrown *)
  end.

Definition validatePrivateViewKey (privateViewKey : JsVal) : completion unit :=
  validateKey privateViewKey.
Definition validatePrivateSpendKey (privateSpendKey : JsVal) : completion unit :=
  validateKey privateSpendKey.
Definition validatePublicViewKey (publicViewKey : JsVal) : completion unit :=
  validateKey publicViewKey.
Definition validatePublicSpendKey (publicSpendKey : JsVal) : completion unit :=
  validateKey publicSpendKey.

(** [validatePaymentId(paymentId)]; [assert.equal] on two strings
    compares them as [===] does. *)
Definition validatePaymentId (paymentId : JsVal) : completion unit :=
  assert (String.eqb (typeOf paymentId) "string") None;;
  match paymentId with
  | JStr paymentId =>
      assert ((String.length paymentId =? 16)%nat || (String.length paymentId =? 64)%nat) None
  | _ => Normal tt (* not reached: the first assertion has thrown *)
  end.

Definition isValidPaymentId (paymentId : JsVal) : bool :=
  match validatePaymentId paymentId with
  | Normal _ => true
  | Throw _ => false
  end.

(** [n] characters '0'. *)
Fixpoint zeros (n : nat) : string :=
  match n with
  | O => EmptyString
  | S n' => String "0" (zeros n')
  end.

(** The character of a payment id at an index, '0' past its end. *)
Definition paddedCharAt (s : string) (i : nat) : ascii :=
  match charAt s i with Some c => c | None => "0"%char end.

(* ------------------------------------------------------------------ *)
(** ** MoneroUtils.getLastTxPubKey                                     *)
(* ------------------------------------------------------------------ *)

(** [txExtra] is an array of bytes, each a number from 0 to 255. *)

(** One hexadecimal digit, and the two digits of a byte as
    [Buffer.toString("hex")] writes them; [new Uint8Array] keeps the
    low eight bits of a number. *)
Definition hexDigit (n : N) : ascii :=
  match n with
  | 0 => "0" | 1 => "1" | 2 => "2" | 3 => "3" | 4 => "4" | 5 => "5" | 6 => "6" | 7 => "7"
  | 8 => "8" | 9 => "9" | 10 => "a" | 11 => "b" | 12 => "c" | 13 => "d" | 14 => "e"
  | _ => "f"
  end%N%char.

Definition toUint8 (n : N) : N := (n mod 256)%N.

Fixpoint toHex (bytes : list N) : string :=
  match bytes with
  | [] => EmptyString
  | b :: bytes' =>
      String (hexDigit (toUint8 b / 16)) (String (hexDigit (toUint8 b mod 16)) (toHex bytes'))
  end.

(** [txExtra.slice(start, start + 32)]; with [start] undefined the
    bounds are [undefined] and [NaN], and the slice is empty. *)
Definition slice32 (txExtra : list N) (start : option nat) : list N :=
  match start with
  | Some k => take 32 (drop k txExtra)
  | None => []
  end.

(** The [for] loop, from index [i] with [lastPubKeyIdx] as found so
    far, for at most [fuel] passes.  Reading [txExtra[i + 1]] past the
    end gives undefined, [i] becomes [NaN] and the test [i < length]
    fails.  After the body the loop adds one to [i]. *)
Fixpoint getLastTxPubKey_loop (fuel : nat) (txExtra : list N) (i : nat)
    (lastPubKeyIdx : option nat) : completion (option nat) :=
  match fuel with
  | O => Normal lastPubKeyIdx
  | S fuel' =>
      match txExtra !! i with
      | None => Normal lastPubKeyIdx
      | Some tag =>
          if (tag =? 0)%N || (tag =? 2)%N then
            match txExtra !! (i + 1)%nat with
            | None => Normal lastPubKeyIdx
            | Some len =>
                getLastTxPubKey_loop fuel' txExtra (i + (1 + N.to_nat len) + 1)%nat
                  lastPubKeyIdx
            end
          else if (tag =? 1)%N then
            getLastTxPubKey_loop fuel' txExtra (i + (1 + 32) + 1)%nat (Some (i + 1)%nat)
          else Throw (Error ("Invalid sub-field tag: " +:+ pretty tag))
      end
  end.

(** The value of [lastPubKeyIdx] when the loop ends.  Every pass moves
    [i] forward, so [length txExtra] passes are enough. *)
Definition lastPubKeyIdxOf (txExtra : list N) : completion (option nat) :=
  getLastTxPubKey_loop (length txExtra) txExtra 0 None.

Definition getLastTxPubKey (txExtra : list N) : completion string :=
  lastPubKeyIdx ← lastPubKeyIdxOf txExtra;
  Normal (toHex (slice32 txExtra lastPubKeyIdx)).

(** An index found in a part of the array, as an index of the whole
    array in which [n] elements come first. *)
Definition shiftIdx (n : nat) (o : option nat) : option nat :=
  match o with Some k => Some (n + k)%nat | None => None end.

(** A field with a length byte: tag 0 or 2, the length, the data. *)
Definition lengthField (tag : N) (data : list N) : list N :=
  tag :: N.of_nat (length data) :: data.

(** A public-key field: tag 1 and the 32 bytes of the key. *)
Definition pubKeyField (key : list N) : list N := 1%N :: key.

(** A candidate with the padded payment id, and a filter that lists the
    short one. *)
Definition sample_paddedTx : MoneroTxWallet nat :=
  {| getId := Some "aa"; getPaymentId := Some pid_padded; getIsConfirmed := None;
     getInTxPool := None; getDoNotRelay := None; getIsRelayed := None;
     getIsFailed := None; getIsCoinbase := None;
     getOutgoingTransfer := None; getIncomingTransfers := None;
     getBlock := None |}.

Definition sample_pidFilter : MoneroTxFilter nat nat :=
  {| getTx := None; getTransferFilter := None; getTxIds := None;
     getHasPaymentId := None; getPaymentIds := Some [pid_short]; getHeight := None;
     getMinHeight := None; getMaxHeight := None;
     getHasOutgoingTransfer := None; getHasIncomingTransfers := None |}.

(** A key of 32 bytes 0xab, and an extra with a nonce field of three
    bytes before the key's field. *)
Definition sample_key : list N := repeat 171%N 32.
Definition sample_extra : list N :=
  lengthField 2 [7; 8; 9]%N ++ pubKeyField sample_key.

(* ------------------------------------------------------------------ *)
(** ** Notions about lists of transactions                             *)
(* ------------------------------------------------------------------ *)

Section MergeNotions.
Context {MoneroTx : Type}.
Variable getHash : MoneroTx -> option string.

(** The hash of the transaction behind a reference. *)
Definition hashAt (h : gmap ref MoneroTx) (r : ref) : option (option string) :=
  getHash <$> h !! r.

(** Every slot holds a transaction, and no two slots hold transactions
    of the same hash. *)
Definition distinctHashes (h : gmap ref MoneroTx) (txs : list ref) : Prop :=
  (forall r, r ∈ txs -> is_Some (h !! r))
  /\ NoDup (hashAt h <$> txs).

(** Called on two transactions, [merge] returns normally and changes
    no transaction's hash. *)
Definition mergeKeepsHashes
    (merge : gmap ref MoneroTx -> ref -> ref -> gmap ref MoneroTx * option JsError) : Prop :=
  forall h aTx tx,
    is_Some (h !! aTx) -> is_Some (h !! tx) ->
    (merge h aTx tx).2 = None
    /\ forall r, hashAt (merge h aTx tx).1 r = hashAt h r.
End MergeNotions.

(* ------------------------------------------------------------------ *)
(** ** MoneroTxFilter: states the evaluation can run on               *)
(* ------------------------------------------------------------------ *)

Section TxFilterStates.
Context {MoneroTransfer MoneroTransferFilter : Type}.

(** What the constructor establishes: the template is an instance, the
    nested filter an instance or a falsy value. *)
Definition constructed (state : FilterState MoneroTransfer MoneroTransferFilter) : Prop :=
  (exists t, state_tx state = TxInstance t)
  /\ (forall v, state_transferFilter state = FilterOther v -> truthy v = false).

(** A value on which [includes] can be called: an array or a string. *)
Definition hasIncludes (v : JsVal) : bool :=
  match v with JArr _ | JStr _ => true | _ => false end.

(** A value whose comparison with a number needs no conversion of a
    string or an object. *)
Definition comparesDirectly (v : JsVal) : bool :=
  match v with JStr _ | JArr _ | JObj _ => false | _ => true end.
End TxFilterStates.

(* ================================================================== *)
(** * Part II. Properties                                              *)
(* ================================================================== *)

(* ------------------------------------------------------------------ *)
(** ** Payment ids                                                     *)
(* ------------------------------------------------------------------ *)

Lemma strictNe_false {A} `{EqDecision A} (a b : option A) :
  strictNe a b = false <-> a = b.
Proof.
  unfold strictNe. rewrite bool_decide_eq_false. split.
  - intros Hn. destruct (decide (a = b)); [done | contradiction].
  - intros -> Hn. by apply Hn.
Qed.

Lemma strictNe_true {A} `{EqDecision A} (a b : option A) :
  strictNe a b = true <-> a <> b.
Proof. unfold strictNe. apply bool_decide_eq_true. Qed.

Lemma charAt_defined (s : string) (i : nat) :
  (i < String.length s)%nat -> exists c, charAt s i = Some c.
Proof.
  unfold charAt. revert i. induction s as [|c s IH]; intros i Hi; simpl in *.
  - lia.
  - destruct i as [|i]; [eauto |]. apply IH. lia.
Qed.

Lemma charAt_undefined (s : string) (i : nat) :
  (String.length s <= i)%nat -> charAt s i = None.
Proof.
  unfold charAt. revert i. induction s as [|c s IH]; intros i Hi; simpl in *.
  - done.
  - destruct i as [|i]; [lia |]. apply IH. lia.
Qed.

(** The loop body lets index [i] pass exactly when the three conditions
    of the rule hold there. *)
Lemma paymentIdsDiffer_false (a b : string) (i : nat) :
  paymentIdsDiffer a b i = false <->
    ((i < String.length a)%nat -> (i < String.length b)%nat -> charAt a i = charAt b i)
    /\ ((String.length a <= i)%nat -> charAt b i = Some "0"%char)
    /\ ((String.length b <= i)%nat -> charAt a i = Some "0"%char).
Proof.
  unfold paymentIdsDiffer.
  destruct (Nat.ltb_spec i (String.length a)) as [Ha|Ha];
    destruct (Nat.ltb_spec i (String.length b)) as [Hb|Hb];
    destruct (Nat.leb_spec (String.length a) i) as [Ha'|Ha'];
    destruct (Nat.leb_spec (String.length b) i) as [Hb'|Hb']; try lia; simpl;
    repeat match goal with
      | |- context [strictNe ?x ?y] =>
          let E := fresh "E" in
          destruct (strictNe x y) eqn:E;
          [apply strictNe_true in E | apply strictNe_false in E]
      end; simpl; split; try done; try (intros (H1 & H2 & H3)); try tauto;
    repeat split; intros; try lia; try done; exfalso; auto.
Qed.

Lemma paymentIdsEqual_from_true (a b : string) (todo i : nat) :
  paymentIdsEqual_from todo i a b = true <->
    forall j, (i <= j < i + todo)%nat -> paymentIdsDiffer a b j = false.
Proof.
  revert i. induction todo as [|todo IH]; intros i; simpl.
  - split; [intros _ j Hj; lia | done].
  - destruct (paymentIdsDiffer a b i) eqn:E.
    + split; [done |]. intros H. rewrite H in E; [done | lia].
    + rewrite IH. split.
      * intros H j Hj. destruct (decide (j = i)) as [->|]; [done |]. apply H. lia.
      * intros H j Hj. apply H. lia.
Qed.

(** C4. [paymentIdsEqual] is equality up to zero padding: two payment
    ids compare equal exactly when they agree at every index both have
    and the longer one holds only '0' past the end of the shorter one;
    the documented 16-character id equals its padding to 64 characters,
    and the padded id ending in 3 instead of 2 is not equal to it. *)
Theorem paymentIdsEqual_zero_padding :
  (forall a b : string,
     paymentIdsEqual a b = true <->
       (forall i, (i < String.length a)%nat -> (i < String.length b)%nat ->
                  charAt a i = charAt b i)
       /\ (forall i, (String.length a <= i < String.length b)%nat ->
                     charAt b i = Some "0"%char)
       /\ (forall i, (String.length b <= i < String.length a)%nat ->
                     charAt a i = Some "0"%char))
  /\ paymentIdsEqual pid_short pid_padded = true
  /\ paymentIdsEqual pid_padded pid_short = true
  /\ paymentIdsEqual pid_other pid_short = false
  /\ paymentIdsEqual pid_short pid_other = false.
Proof.
  split; [| by vm_compute].
  intros a b. unfold paymentIdsEqual. rewrite paymentIdsEqual_from_true. split.
  - intros H.
    assert (Hb : forall i, (i < String.length a `max` String.length b)%nat ->
                 paymentIdsDiffer a b i = false) by (intros i Hi; apply H; lia).
    repeat split; intros i Hi; try intros Hi';
      (assert (Hd : paymentIdsDiffer a b i = false) by (apply Hb; lia));
      apply paymentIdsDiffer_false in Hd as (Hd1 & Hd2 & Hd3).
    + by apply Hd1.
    + apply Hd2. lia.
    + apply Hd3. lia.
  - intros (H1 & H2 & H3) j Hj. apply paymentIdsDiffer_false. repeat split.
    + apply H1.
    + intros. apply H2. lia.
    + intros. apply H3. lia.
Qed.

(* ------------------------------------------------------------------ *)
(** ** Merging a transaction into a list                               *)
(* ------------------------------------------------------------------ *)

Section MergeTxFacts.
Context {MoneroTx : Type}.
Variable getHash : MoneroTx -> option string.
Variable merge : gmap ref MoneroTx -> ref -> ref -> gmap ref MoneroTx * option JsError.

Lemma strictEq_true {A} `{EqDecision A} (a b : option A) :
  strictEq a b = true <-> a = b.
Proof. unfold strictEq. apply bool_decide_eq_true. Qed.

(** What the scan returns when every slot holds a transaction: the
    merge at the first entry with the hash of [tx], or nothing when no
    entry has it. *)
Lemma mergeTx_loop_first (h : gmap ref MoneroTx) (txs : list ref) (tx : ref) (t : MoneroTx) :
  h !! tx = Some t ->
  (forall r, r ∈ txs -> is_Some (h !! r)) ->
  match mergeTx_loop getHash merge h txs tx with
  | Some res =>
      exists pre aTx post a,
        txs = pre ++ aTx :: post
        /\ h !! aTx = Some a
        /\ getHash a = getHash t
        /\ (forall r b, r ∈ pre -> h !! r = Some b -> getHash b <> getHash t)
        /\ res = merge h aTx tx
  | None => forall r b, r ∈ txs -> h !! r = Some b -> getHash b <> getHash t
  end.
Proof.
  intros Htx. induction txs as [|aTx txs' IH]; intros Hall; simpl.
  - intros r b Hr. by apply elem_of_nil in Hr.
  - destruct (Hall aTx) as [a Ha]; [by left |]. rewrite Ha, Htx.
    destruct (strictEq (getHash a) (getHash t)) eqn:E.
    + apply strictEq_true in E. exists [], aTx, txs', a.
      repeat split; try done. intros r b Hr. by apply elem_of_nil in Hr.
    + assert (Hne : getHash a <> getHash t).
      { intros Heq. apply strictEq_true in Heq. congruence. }
      specialize (IH (fun r Hr => Hall r (list_elem_of_further _ _ _ Hr))).
      destruct (mergeTx_loop getHash merge h txs' tx) as [res|].
      * destruct IH as (pre & x & post & b & -> & Hx & Hhash & Hpre & ->).
        exists (aTx :: pre), x, post, b. repeat split; try done.
        intros r c Hr Hc. apply elem_of_cons in Hr as [->|Hr]; [| by eapply Hpre].
        congruence.
      * intros r c Hr Hc. apply elem_of_cons in Hr as [->|Hr]; [| by eapply IH].
        congruence.
Qed.

(** C1. [mergeTx(txs, tx)] finds the first entry of [txs] whose hash
    equals that of [tx]: it merges [tx] into that entry in place and
    leaves the list as it was (same entries, same order, same length),
    or, when no entry has that hash, appends [tx] at the end.  On the
    empty list it appends, and on a one-element list whose entry has
    the hash of [tx] it merges and the list keeps its one element. *)
Theorem mergeTx_first_match_or_append
    (h : gmap ref MoneroTx) (txs : list ref) (tx : ref) (t : MoneroTx) :
  h !! tx = Some t ->
  (forall r, r ∈ txs -> is_Some (h !! r)) ->
  ((exists pre aTx post a,
      txs = pre ++ aTx :: post
      /\ h !! aTx = Some a
      /\ getHash a = getHash t
      /\ (forall r b, r ∈ pre -> h !! r = Some b -> getHash b <> getHash t)
      /\ mergeTx getHash merge h txs tx
         = ((merge h aTx tx).1, txs, (merge h aTx tx).2))
   \/ ((forall r b, r ∈ txs -> h !! r = Some b -> getHash b <> getHash t)
       /\ mergeTx getHash merge h txs tx = (h, txs ++ [tx], None)))
  /\ mergeTx getHash merge h [] tx = (h, [tx], None)
  /\ (forall aTx a,
        h !! aTx = Some a -> getHash a = getHash t ->
        mergeTx getHash merge h [aTx] tx
        = ((merge h aTx tx).1, [aTx], (merge h aTx tx).2)
        /\ length (mergeTx getHash merge h [aTx] tx).1.2 = 1%nat).
Proof.
  intros Htx Hall. split; [| split].
  - pose proof (mergeTx_loop_first h txs tx t Htx Hall) as H.
    unfold mergeTx. destruct (mergeTx_loop getHash merge h txs tx) as [[h' e]|].
    + left. destruct H as (pre & aTx & post & a & Htxs & Ha & Hhash & Hpre & Hres).
      exists pre, aTx, post, a. repeat split; try done. by rewrite <- Hres.
    + right. by split.
  - done.
  - intros aTx a Ha Hhash. unfold mergeTx. simpl. rewrite Ha, Htx.
    apply strictEq_true in Hhash. rewrite Hhash.
    by destruct (merge h aTx tx).
Qed.
End MergeTxFacts.

(* ------------------------------------------------------------------ *)
(** ** The provider-backed operations                                  *)
(* ------------------------------------------------------------------ *)

Lemma bind_Normal {A B} (c : completion A) (k : A -> completion B) (a : A) :
  c = Normal a -> (c ≫= k) = k a.
Proof. by intros ->. Qed.

Lemma bind_Throw {A B} (c : completion A) (k : A -> completion B) (e : JsError) :
  c = Throw e -> (c ≫= k) = Throw e.
Proof. by intros ->. Qed.

(** A [map] whose callback succeeds on every element succeeds, with one
    result per element, in order. *)
Lemma mapC_Normal {A B} (f : A -> completion B) (xs : list A) :
  (forall x, x ∈ xs -> exists y, f x = Normal y) ->
  exists ys, mapC f xs = Normal ys /\ Forall2 (fun x y => f x = Normal y) xs ys.
Proof.
  induction xs as [|x xs IH]; intros Hall; simpl.
  - exists []. split; [done | constructor].
  - destruct (Hall x) as [y Hy]; [by left |].
    destruct IH as (ys & Hys & HF).
    { intros z Hz. apply Hall. by right. }
    exists (y :: ys). rewrite (bind_Normal _ _ _ Hy). simpl.
    rewrite (bind_Normal _ _ _ Hys). split; [done | by constructor].
Qed.

Lemma substring_all (s : string) : String.substring 0 (String.length s) s = s.
Proof. induction s as [|c s IH]; simpl; [done | by rewrite IH]. Qed.

Lemma prefix_empty (s : string) : String.prefix "" s = true.
Proof. by destruct s. Qed.

(** [replace] puts the replacement where the first occurrence of a
    one-character pattern is. *)
Lemma replace_first_char (c d : ascii) (pre post : string) :
  (forall i, charAt pre i <> Some c) ->
  replace (String c "") (String d "") (pre +:+ String c post) = pre +:+ String d post.
Proof.
  induction pre as [|x pre IH]; intros Hpre; simpl.
  - destruct (ascii_dec c c) as [_|Hn]; [| done].
    by rewrite prefix_empty, Nat.sub_0_r, substring_all.
  - destruct (ascii_dec c x) as [->|Hne].
    + exfalso. by apply (Hpre 0%nat).
    + rewrite IH; [done |]. intros i. apply (Hpre (S i)).
Qed.

Lemma replace_absent_char (c d : ascii) (s : string) :
  (forall i, charAt s i <> Some c) ->
  replace (String c "") (String d "") s = s.
Proof.
  induction s as [|x s IH]; intros Hs; simpl; [done |].
  destruct (ascii_dec c x) as [->|Hne].
  - exfalso. by apply (Hs 0%nat).
  - rewrite IH; [done |]. intros i. apply (Hs (S i)).
Qed.

(** Conversely, the results of a [map] that returned are those of its
    callback. *)
Lemma mapC_Normal_inv {A B} (f : A -> completion B) (xs : list A) (ys : list B) :
  mapC f xs = Normal ys -> Forall2 (fun x y => f x = Normal y) xs ys.
Proof.
  revert ys. induction xs as [|x xs IH]; intros ys; simpl.
  - intros [= <-]. constructor.
  - destruct (f x) as [y|e] eqn:Ex; simpl; [| done].
    destruct (mapC f xs) as [ys'|e] eqn:Exs; simpl; [| done].
    intros [= <-]. constructor; [done | by apply IH].
Qed.

Lemma mapC_Forall2 {A B} (f : A -> completion B) (xs : list A) (ys : list B) :
  mapC f xs = Normal ys <-> Forall2 (fun x y => f x = Normal y) xs ys.
Proof.
  split; [apply mapC_Normal_inv |].
  induction 1 as [|x y xs ys Hxy _ IH]; simpl; [done |].
  rewrite (bind_Normal _ _ _ Hxy). simpl. by rewrite (bind_Normal _ _ _ IH).
Qed.

Section ProviderFacts.
Variable isBase58 : string -> bool.
Variable validateNetworkType : JsVal -> completion unit.
Variable JSON_parse : string -> completion JsVal.
Variable JSON_parse_blocks : string -> completion BlocksJson.

(** Without a module [validateAddress] never returns normally. *)
Lemma validateAddress_unloaded_throws (address networkType : JsVal) :
  exists e, validateAddress isBase58 validateNetworkType None address networkType = Throw e.
Proof.
  unfold validateAddress, assert.
  destruct address; simpl; eauto.
  destruct (0 <? String.length s)%nat; simpl; eauto.
  destruct (isBase58 s); simpl; eauto.
  destruct (validateNetworkType networkType); simpl; eauto.
Qed.

(** [throw MoneroError(msg)] never throws an instance of the class:
    the call that should build it raises a TypeError. *)
Lemma throwMoneroError_TypeError {A} (msg : string) :
  @throwMoneroError A msg = Throw TypeError.
Proof. reflexivity. Qed.

(** C8, as the code has it.  Before the module is loaded,
    [jsonToBinary], [binaryToJson] and [binaryBlocksToJson] fail at
    their module check on every input, and [validateAddress] fails
    there, with the same error, when the address is a non-empty base-58
    string and the network type is valid.  [validateAddress] fails on
    every other input too, with the error of its first failed argument
    check: the assertion that the address is a string, that it is not
    empty, that it is base 58, or the error of the network-type
    validation. *)
Theorem provider_unavailable_before_load :
  (exists e,
     (forall json, jsonToBinary None json = Throw e)
     /\ (forall uint8arr, binaryToJson JSON_parse None uint8arr = Throw e)
     /\ (forall uint8arr,
           binaryBlocksToJson JSON_parse JSON_parse_blocks None uint8arr = Throw e)
     /\ (forall address networkType u,
           address <> "" ->
           isBase58 address = true ->
           validateNetworkType networkType = Normal u ->
           validateAddress isBase58 validateNetworkType None (JStr address) networkType
           = Throw e))
  /\ (forall address networkType,
        exists e, validateAddress isBase58 validateNetworkType None address networkType = Throw e)
  /\ (forall address networkType,
        typeOf address <> "string" ->
        validateAddress isBase58 validateNetworkType None address networkType
        = Throw (AssertionError (Some "Address is not string")))
  /\ (forall networkType,
        validateAddress isBase58 validateNetworkType None (JStr "") networkType
        = Throw (AssertionError (Some "Address is empty")))
  /\ (forall address networkType,
        address <> "" ->
        isBase58 address = false ->
        validateAddress isBase58 validateNetworkType None (JStr address) networkType
        = Throw (AssertionError (Some "Address is not base 58")))
  /\ (forall address networkType e,
        address <> "" ->
        isBase58 address = true ->
        validateNetworkType networkType = Throw e ->
        validateAddress isBase58 validateNetworkType None (JStr address) networkType
        = Throw e).
Proof.
  split; [| split; [| split; [| split; [| split]]]].
  - exists TypeError. split; [done | split; [done | split; [done |]]].
    intros address networkType u Hne Hb Hnt. unfold validateAddress, assert. simpl.
    destruct address as [|c address]; [done |]. simpl.
    rewrite Hb. simpl. by rewrite Hnt.
  - apply validateAddress_unloaded_throws.
  - intros address networkType Hty. by destruct address.
  - done.
  - intros address networkType Hne Hb. unfold validateAddress, assert. simpl.
    destruct address as [|c address]; [done |]. simpl. by rewrite Hb.
  - intros address networkType e Hne Hb Hnt. unfold validateAddress, assert. simpl.
    destruct address as [|c address]; [done |]. simpl.
    rewrite Hb. simpl. by rewrite Hnt.
Qed.

(** C10. [isValidAddress] gives the same answer whatever network type
    it is called with: it runs [validateAddress] on the address alone
    and answers [true] exactly when that call returns without
    throwing. *)
Theorem isValidAddress_networkType_irrelevant
    (wasm : option WasmModule) (address networkType1 networkType2 : JsVal) :
  isValidAddress isBase58 validateNetworkType wasm address networkType1
  = isValidAddress isBase58 validateNetworkType wasm address networkType2
  /\ (isValidAddress isBase58 validateNetworkType wasm address networkType1 = true <->
      exists u, validateAddress isBase58 validateNetworkType wasm address JUndefined = Normal u).
Proof.
  split; [done |]. unfold isValidAddress.
  destruct (validateAddress isBase58 validateNetworkType wasm address JUndefined)
    as [u|e]; split; try done.
  - eauto.
  - by intros [u Hu].
Qed.

(** An array with a buffer of its own gets to the module: its bytes
    lie in the block allocated for them. *)
Lemma toHeap_spans (m : WasmModule) (uint8arr : Uint8Array.t) :
  spansBuffer uint8arr ->
  allocates m (Uint8Array.length uint8arr) ->
  toHeap m uint8arr
  = Normal (memoryWith m (Uint8Array.buffer uint8arr),
            binMemInfoOf m (Uint8Array.buffer uint8arr)).
Proof.
  intros [_ Hlen] Halloc. unfold allocates in Halloc.
  unfold toHeap, Uint8Array.view, Uint8Array.BYTES_PER_ELEMENT.
  rewrite Nat.mul_1_r.
  destruct (Nat.leb_spec (_malloc m (Uint8Array.length uint8arr) + Uint8Array.length uint8arr)
              (length (HEAPU8 m))) as [_|Hlt]; [| lia].
  simpl. rewrite Nat.eqb_refl. simpl.
  unfold Uint8Array.set, Uint8Array.elements. simpl.
  destruct (Nat.ltb_spec (Uint8Array.length uint8arr)
              (length (Uint8Array.buffer uint8arr))) as [Hlt|_]; [lia |].
  simpl. rewrite drop_0, firstn_all.
  unfold memoryWith, binMemInfoOf. by rewrite Hlen.
Qed.

(** A window of a larger buffer does not: the whole buffer is written
    to a block of the window's length. *)
Lemma toHeap_window (m : WasmModule) (uint8arr : Uint8Array.t) :
  (Uint8Array.length uint8arr < length (Uint8Array.buffer uint8arr))%nat ->
  toHeap m uint8arr = Throw RangeError.
Proof.
  intros Hlt. unfold toHeap, Uint8Array.view, Uint8Array.BYTES_PER_ELEMENT.
  rewrite Nat.mul_1_r.
  destruct (_ <=? _)%nat; [| done].
  simpl. rewrite Nat.eqb_refl. simpl.
  unfold Uint8Array.set. simpl.
  by destruct (Nat.ltb_spec (Uint8Array.length uint8arr)
                 (length (Uint8Array.buffer uint8arr))) as [_|Hge]; [| lia].
Qed.

(** C9, as the code has it.  With the module loaded, for an array with
    a buffer of its own and a block allocated within the module's
    memory, [binaryBlocksToJson] returns exactly when the module's
    answer parses into its two arrays of strings, every block string
    parses as it is, and every transaction string parses after "{" is
    put in place of its first comma and "}" at its end; the result then
    holds one record per block string and, per block, one record per
    transaction string, in order, and the empty list for an absent
    transaction list.  For a transaction string that starts with the
    comma, the text parsed is the rest of the string between braces; a
    string without comma gets the closing brace and nothing else. *)
Theorem binaryBlocksToJson_structured
    (m : WasmModule) (uint8arr : Uint8Array.t) (res : BlocksResult) :
  spansBuffer uint8arr ->
  allocates m (Uint8Array.length uint8arr) ->
  (binaryBlocksToJson JSON_parse JSON_parse_blocks (Some m) uint8arr = Normal res <->
     exists json,
       JSON_parse_blocks (blocksText m (Uint8Array.buffer uint8arr)) = Normal json
       /\ Forall2 (fun blockStr v => JSON_parse blockStr = Normal v)
            (json_blocks json) (blocks res)
       /\ Forall2 (fun otxs vs =>
                     match otxs with
                     | Some l =>
                         Forall2 (fun tx v =>
                                    JSON_parse (replace "," "{" tx +:+ "}") = Normal v) l vs
                     | None => vs = []
                     end)
            (json_txs json) (txs res))
  /\ (forall body, replace "," "{" ("," +:+ body) +:+ "}" = "{" +:+ body +:+ "}")
  /\ (forall pre post,
        (forall i, charAt pre i <> Some ","%char) ->
        replace "," "{" (pre +:+ "," +:+ post) +:+ "}"
        = (pre +:+ "{" +:+ post) +:+ "}")
  /\ (forall tx,
        (forall i, charAt tx i <> Some ","%char) ->
        replace "," "{" tx +:+ "}" = tx +:+ "}").
Proof.
  intros Hspan Halloc. split; [| split; [| split]].
  - set (g := fun otxs : option (list string) =>
                match otxs with
                | Some l => mapC (fun tx => JSON_parse (replace "," "{" tx +:+ "}")) l
                | None => Normal []
                end).
    assert (Hg : forall otxs vs,
               g otxs = Normal vs <->
               match otxs with
               | Some l =>
                   Forall2 (fun tx v =>
                              JSON_parse (replace "," "{" tx +:+ "}") = Normal v) l vs
               | None => vs = []
               end).
    { intros [l|] vs; simpl; [apply mapC_Forall2 |]. split; congruence. }
    unfold binaryBlocksToJson. fold g.
    rewrite (toHeap_spans m uint8arr Hspan Halloc). simpl.
    fold (blocksText m (Uint8Array.buffer uint8arr)). split.
    + destruct (JSON_parse_blocks (blocksText m (Uint8Array.buffer uint8arr)))
        as [json|e] eqn:Ej; simpl; [| done].
      destruct (mapC (fun blockStr => JSON_parse blockStr) (json_blocks json))
        as [bs|e] eqn:Eb; simpl; [| done].
      destruct (mapC g (json_txs json)) as [ts|e] eqn:Et; simpl; [| done].
      intros [= <-]. exists json. simpl. split; [done | split].
      * by apply mapC_Forall2.
      * apply mapC_Forall2 in Et. eapply Forall2_impl; [exact Et |].
        intros otxs vs. apply Hg.
    + intros (json & Hjson & Hb & Ht). rewrite Hjson. simpl.
      apply mapC_Forall2 in Hb. rewrite (bind_Normal _ _ _ Hb).
      assert (Ht' : mapC g (json_txs json) = Normal (txs res)).
      { apply mapC_Forall2. eapply Forall2_impl; [exact Ht |].
        intros otxs vs. apply Hg. }
      rewrite (bind_Normal _ _ _ Ht'). by destruct res.
  - intros body. simpl. by rewrite prefix_empty, Nat.sub_0_r, substring_all.
  - intros pre post Hpre.
    change ("," +:+ post) with (String ","%char post).
    by rewrite (replace_first_char ","%char "{"%char pre post Hpre).
  - intros tx Htx. by rewrite (replace_absent_char ","%char "{"%char tx Htx).
Qed.
End ProviderFacts.

(* ------------------------------------------------------------------ *)
(** ** The transaction filter on well-typed state                      *)
(* ------------------------------------------------------------------ *)

Lemma reject_else (c rest : bool) :
  (if c then false else rest) = true <-> c = false /\ rest = true.
Proof. destruct c; intuition congruence. Qed.

Lemma accept_else (c rest : bool) :
  (if c then true else rest) = false <-> c = false /\ rest = false.
Proof. destruct c; intuition congruence. Qed.

Lemma clause_unset {A} (o : option A) (f : A -> bool) :
  match o with Some a => f a | None => false end = false <->
  forall a, o = Some a -> f a = false.
Proof.
  destruct o as [a|]; split; try done.
  - by intros H b [= <-].
  - intros H. by apply H.
Qed.

Lemma field_accepts {A} `{EqDecision A} (a b : option A) :
  defined a && strictNe a b = false <-> forall v, a = Some v -> b = Some v.
Proof.
  destruct a as [v|]; simpl.
  - rewrite strictNe_false. split.
    + by intros <- w [= <-].
    + intros H. symmetry. by apply H.
  - split; [by intros _ v | done].
Qed.

Lemma bound_accepts {A} `{EqDecision A} (a b : option A) :
  defined a && strictNe b a = false <-> forall v, a = Some v -> b = Some v.
Proof.
  rewrite <- field_accepts. destruct a; simpl; [| done].
  rewrite !strictNe_false. split; congruence.
Qed.

Section TxFilterFacts.
Context {MoneroTransfer MoneroTransferFilter : Type}.
Variable transferMeetsCriteria : MoneroTransferFilter -> MoneroTransfer -> bool.

Implicit Types F : MoneroTxFilter MoneroTransfer MoneroTransferFilter.
Implicit Types t tx : MoneroTxWallet MoneroTransfer.

Lemma template_rejects_false t tx :
  template_rejects t tx = false <-> templateAgrees t tx.
Proof.
  unfold template_rejects, templateAgrees.
  rewrite !accept_else, !field_accepts. tauto.
Qed.

(** [meetsCriteria] accepts exactly when no clause rejects. *)
Lemma meetsCriteria_true F tx :
  meetsCriteria transferMeetsCriteria F tx = true <->
    (forall t, getTx F = Some t -> template_rejects t tx = false)
    /\ (forall tf, getTransferFilter F = Some tf ->
          matchFound transferMeetsCriteria tf tx = true)
    /\ (forall has, getHasPaymentId F = Some has -> hasPaymentId_rejects has tx = false)
    /\ (forall has, getHasOutgoingTransfer F = Some has ->
          hasOutgoingTransfer_rejects has tx = false)
    /\ (forall has, getHasIncomingTransfers F = Some has ->
          hasIncomingTransfers_rejects has tx = false)
    /\ (forall ids, getTxIds F = Some ids -> includes ids (getId tx) = true)
    /\ (forall ids, getPaymentIds F = Some ids -> includes ids (getPaymentId tx) = true)
    /\ (forall h, getHeight F = Some h -> heightOf tx = Some h)
    /\ (forall min, getMinHeight F = Some min -> minHeight_rejects min (heightOf tx) = false)
    /\ (forall max, getMaxHeight F = Some max -> maxHeight_rejects max (heightOf tx) = false).
Proof.
  unfold meetsCriteria. cbv zeta.
  rewrite !reject_else, !clause_unset, bound_accepts.
  setoid_rewrite negb_false_iff. tauto.
Qed.

(** A clause that is unset on the first filter, or set there as on the
    second, holds on the first when it holds on the second. *)
Lemma clause_contained {A} (c1 c2 : option A) (P : A -> Prop) :
  setIdentically c1 c2 ->
  (forall a, c2 = Some a -> P a) -> forall a, c1 = Some a -> P a.
Proof. intros [-> | ->] H a Ha; [done | by apply H]. Qed.

Lemma templateField_contained {A} (get : MoneroTxWallet MoneroTransfer -> option A)
    F1 F2 t1 tx :
  setIdentically (templateField get F1) (templateField get F2) ->
  getTx F1 = Some t1 ->
  (forall t2, getTx F2 = Some t2 -> forall v, get t2 = Some v -> get tx = Some v) ->
  forall v, get t1 = Some v -> get tx = Some v.
Proof.
  unfold setIdentically, templateField. intros Hc Ht1 H2 v Hv. rewrite Ht1 in Hc.
  destruct Hc as [Hc | Hc]; [congruence |].
  destruct (getTx F2) as [t2|]; [| congruence].
  apply (H2 t2 eq_refl). congruence.
Qed.

(** C2. A filter whose constraints are among those of a second filter
    accepts every transaction the second accepts. *)
Theorem meetsCriteria_monotone F1 F2 tx :
  constraintsContained F1 F2 ->
  meetsCriteria transferMeetsCriteria F2 tx = true ->
  meetsCriteria transferMeetsCriteria F1 tx = true.
Proof.
  intros (Hid & Hpid & Hconf & Hpool & Hrelay & Hrelayed & Hfailed & Hcoin
          & Htf & Hhp & Hho & Hhi & Hids & Hpids & Hh & Hmin & Hmax).
  rewrite !meetsCriteria_true.
  intros (T & C2 & C3 & C4 & C5 & C6 & C7 & C8 & C9 & C10).
  split; [| repeat split; eapply clause_contained; eauto].
  intros t1 Ht1. apply template_rejects_false.
  assert (T' : forall t2, getTx F2 = Some t2 -> templateAgrees t2 tx).
  { intros t2 Ht2. apply template_rejects_false. by apply T. }
  unfold templateAgrees in *.
  repeat split; eapply templateField_contained; eauto; intros t2 Ht2; apply (T' t2 Ht2).
Qed.

(** C3, as the code has it.  A filter accepts a candidate exactly when
    the candidate agrees with the template on each of the fields id,
    payment id, is-confirmed, in-tx-pool, do-not-relay, is-relayed,
    is-failed and is-coinbase that the template sets (the candidate's
    field is then defined and equal) and the filter without the
    template accepts it: template fields left unset impose no
    constraint, nor do the template's other fields. *)
Theorem meetsCriteria_template F tx :
  meetsCriteria transferMeetsCriteria F tx = true <->
    (forall t, getTx F = Some t -> templateAgrees t tx)
    /\ meetsCriteria transferMeetsCriteria (withoutTx F) tx = true.
Proof.
  rewrite !meetsCriteria_true. simpl.
  setoid_rewrite template_rejects_false. intuition congruence.
Qed.

Lemma matchFound_true (tf : MoneroTransferFilter) tx :
  matchFound transferMeetsCriteria tf tx = true <->
  exists transfer, transfer ∈ transfersOf tx /\ transferMeetsCriteria tf transfer = true.
Proof.
  unfold matchFound, transfersOf.
  destruct (getOutgoingTransfer tx) as [o|]; simpl.
  - destruct (transferMeetsCriteria tf o) eqn:Eo.
    + split; [| done]. intros _. exists o. split; [by left | done].
    + destruct (getIncomingTransfers tx) as [l|].
      * rewrite existsb_exists. split.
        -- intros (x & Hx & Hm). exists x. split; [| done].
           right. by apply list_elem_of_In.
        -- intros (x & Hx & Hm). apply elem_of_cons in Hx as [-> | Hx]; [congruence |].
           exists x. split; [by apply list_elem_of_In | done].
      * split; [done |]. intros (x & Hx & Hm).
        apply elem_of_cons in Hx as [-> | Hx]; [congruence | by apply elem_of_nil in Hx].
  - destruct (getIncomingTransfers tx) as [l|].
    + rewrite existsb_exists. split.
      * intros (x & Hx & Hm). exists x. split; [by apply list_elem_of_In | done].
      * intros (x & Hx & Hm). exists x. split; [by apply list_elem_of_In | done].
    + split; [done |]. intros (x & Hx & _). by apply elem_of_nil in Hx.
Qed.

(** C5. For a filter with a nested transfer filter, the transfer
    clause holds exactly when the candidate's outgoing transfer or one
    of its incoming transfers satisfies the nested filter; the filter
    accepts exactly when that clause holds and the filter without the
    nested filter accepts; a candidate without any transfer is
    rejected. *)
Theorem meetsCriteria_transferFilter F (tf : MoneroTransferFilter) tx :
  getTransferFilter F = Some tf ->
  (matchFound transferMeetsCriteria tf tx = true <->
     exists transfer,
       transfer ∈ transfersOf tx /\ transferMeetsCriteria tf transfer = true)
  /\ (meetsCriteria transferMeetsCriteria F tx = true <->
        matchFound transferMeetsCriteria tf tx = true
        /\ meetsCriteria transferMeetsCriteria (withoutTransferFilter F) tx = true)
  /\ (transfersOf tx = [] -> meetsCriteria transferMeetsCriteria F tx = false).
Proof.
  intros Htf.
  assert (Hiff : meetsCriteria transferMeetsCriteria F tx = true <->
            matchFound transferMeetsCriteria tf tx = true
            /\ meetsCriteria transferMeetsCriteria (withoutTransferFilter F) tx = true).
  { rewrite !meetsCriteria_true. simpl. rewrite Htf. intuition (try congruence).
    match goal with H : forall tf0, Some tf = Some tf0 -> _ |- _ => by apply H end. }
  split; [apply matchFound_true | split; [exact Hiff |]].
  intros Hnone. apply not_true_is_false. intros Hacc.
  apply Hiff in Hacc as [Hm _]. apply matchFound_true in Hm as (x & Hx & _).
  rewrite Hnone in Hx. by apply elem_of_nil in Hx.
Qed.

Lemma heightOf_unknown tx : heightUnknown tx -> heightOf tx = None.
Proof.
  unfold heightOf. intros [-> | (block & -> & ->)]; done.
Qed.

(** C6. A filter with an exact height, a minimum height or a maximum
    height rejects every candidate whose block or block header is
    absent, whatever the bound. *)
Theorem meetsCriteria_height_unknown F tx :
  getHeight F <> None \/ getMinHeight F <> None \/ getMaxHeight F <> None ->
  heightUnknown tx ->
  meetsCriteria transferMeetsCriteria F tx = false.
Proof.
  intros Hset Hunk. apply heightOf_unknown in Hunk.
  apply not_true_is_false. rewrite meetsCriteria_true.
  intros (_ & _ & _ & _ & _ & _ & _ & Hh & Hmin & Hmax).
  rewrite Hunk in *. destruct Hset as [Hs | [Hs | Hs]].
  - destruct (getHeight F) as [h|]; [| done]. by specialize (Hh h eq_refl).
  - destruct (getMinHeight F) as [m|]; [| done]. by specialize (Hmin m eq_refl).
  - destruct (getMaxHeight F) as [m|]; [| done]. by specialize (Hmax m eq_refl).
Qed.
End TxFilterFacts.

(* ------------------------------------------------------------------ *)
(** ** The transaction filter on any state                             *)
(* ------------------------------------------------------------------ *)

Lemma includes_untyped_strings (ids : list string) (x : option string) :
  includes_untyped (JArr (map JStr ids)) x = Normal (includes ids x).
Proof.
  simpl. f_equal. destruct x as [s|]; simpl.
  - induction ids as [|i ids IH]; simpl; [done | by rewrite IH].
  - induction ids as [|i ids IH]; simpl; [done | by rewrite IH].
Qed.

Lemma heightNe_number (height : option Z) (h : Z) :
  heightNe height (JNum h) = strictNe height (Some h).
Proof.
  unfold heightNe, strictNe. destruct height as [h'|].
  - destruct (Z.eqb_spec h' h) as [->|Hne]; simpl.
    + symmetry. apply bool_decide_eq_false. intros Hn. by apply Hn.
    + symmetry. apply bool_decide_eq_true. congruence.
  - symmetry. by apply bool_decide_eq_true.
Qed.

Lemma presence_typed (o : option bool) (f : bool -> bool) :
  isDefined (optJ JBool o) && f (truthy (optJ JBool o))
  = match o with Some has => f has | None => false end.
Proof. by destruct o. Qed.

Lemma membership_typed (o : option (list string)) (x : option string) :
  (if isDefined (optJ (fun ids => JArr (map JStr ids)) o)
   then b ← includes_untyped (optJ (fun ids => JArr (map JStr ids)) o) x; Normal (negb b)
   else Normal false)
  = Normal (match o with Some ids => negb (includes ids x) | None => false end).
Proof.
  destruct o as [ids|]; [| done].
  change (optJ _ (Some ids)) with (JArr (map JStr ids)).
  by rewrite includes_untyped_strings.
Qed.

Lemma height_typed (o height : option Z) :
  isDefined (optJ JNum o) && heightNe height (optJ JNum o)
  = defined o && strictNe height o.
Proof. destruct o as [h|]; [| done]. simpl. apply heightNe_number. Qed.

Lemma minHeight_typed (lt : Z -> JsVal -> completion bool) (o height : option Z) :
  (if isDefined (optJ JNum o)
   then match height with
        | Some h => lessThan lt h (optJ JNum o)
        | None => Normal true
        end
   else Normal false)
  = Normal (match o with Some min => minHeight_rejects min height | None => false end).
Proof. destruct o as [m|]; [| done]. by destruct height. Qed.

Lemma maxHeight_typed (gt : Z -> JsVal -> completion bool) (o height : option Z) :
  (if isDefined (optJ JNum o)
   then match height with
        | Some h => greaterThan gt h (optJ JNum o)
        | None => Normal true
        end
   else Normal false)
  = Normal (match o with Some max => maxHeight_rejects max height | None => false end).
Proof. destruct o as [m|]; [| done]. by destruct height. Qed.

Section TxFilterUntypedFacts.
Context {MoneroTransfer MoneroTransferFilter : Type}.
Variable transferMeetsCriteria : MoneroTransferFilter -> MoneroTransfer -> bool.
Variable newTxWalletFromState :
  FilterState MoneroTransfer MoneroTransferFilter -> completion (MoneroTxWallet MoneroTransfer).
Variable newTxWallet : JsVal -> completion (MoneroTxWallet MoneroTransfer).
Variable newTransferFilter : JsVal -> completion MoneroTransferFilter.
Variable lessThan_coerced : Z -> JsVal -> completion bool.
Variable greaterThan_coerced : Z -> JsVal -> completion bool.

Implicit Types F : MoneroTxFilter MoneroTransfer MoneroTransferFilter.
Implicit Types tx : MoneroTxWallet MoneroTransfer.
Implicit Types state : FilterState MoneroTransfer MoneroTransferFilter.

Lemma template_typed (o : option (MoneroTxWallet MoneroTransfer)) tx :
  template_rejects_untyped
    (match o with Some t => TxInstance t | None => TxOther JUndefined end) tx
  = Normal (match o with Some t => template_rejects t tx | None => false end).
Proof. by destruct o. Qed.

Lemma transfer_typed (o : option MoneroTransferFilter) tx :
  transfer_rejects_untyped transferMeetsCriteria
    (match o with Some tf => FilterInstance tf | None => FilterOther JUndefined end) tx
  = Normal (match o with
            | Some tf => negb (matchFound transferMeetsCriteria tf tx)
            | None => false
            end).
Proof. by destruct o. Qed.

(** On the state of a well-typed filter the evaluation never throws,
    and returns what [meetsCriteria] computes. *)
Lemma meetsCriteria_untyped_stateOf F tx :
  meetsCriteria_untyped transferMeetsCriteria lessThan_coerced greaterThan_coerced
    (stateOf F) (TxInstance tx)
  = Normal (meetsCriteria transferMeetsCriteria F tx).
Proof.
  unfold meetsCriteria_untyped. simpl.
  unfold meetsCriteria_clauses, meetsCriteria, stateOf.
  cbn [state_tx state_transferFilter state_txIds state_hasPaymentId state_paymentIds
       state_height state_minHeight state_maxHeight state_hasOutgoingTransfer
       state_hasIncomingTransfers].
  cbv zeta.
  rewrite template_typed, transfer_typed, !membership_typed, height_typed,
    minHeight_typed, maxHeight_typed.
  rewrite (presence_typed (getHasPaymentId F) (fun has => hasPaymentId_rejects has tx)).
  rewrite (presence_typed (getHasOutgoingTransfer F)
             (fun has => hasOutgoingTransfer_rejects has tx)).
  rewrite (presence_typed (getHasIncomingTransfers F)
             (fun has => hasIncomingTransfers_rejects has tx)).
  repeat match goal with
         | |- context [Normal ?b ≫= _] =>
             change (Normal b ≫= ?k) with (k b); cbv beta
         | |- (if ?c then _ else _) = _ => destruct c; [done |]
         end.
  done.
Qed.

(** The constructor has no [throw] of its own: when it fails, one of
    the constructors it calls has failed. *)
Lemma constructor_Throw state e :
  constructor newTxWalletFromState newTxWallet newTransferFilter state = Throw e ->
  (txArg_truthy (state_tx state) = false /\ newTxWalletFromState state = Throw e)
  \/ (exists v, state_transferFilter state = FilterOther v
                /\ truthy v = true /\ newTransferFilter v = Throw e)
  \/ (exists v, state_tx state = TxOther v
                /\ truthy v = true /\ newTxWallet v = Throw e).
Proof.
  unfold constructor.
  destruct (txArg_truthy (state_tx state)) eqn:Etx; simpl.
  - destruct (state_transferFilter state) as [f|v] eqn:Etf; simpl.
    + destruct (state_tx state) as [t|w] eqn:Et; simpl; [done |].
      destruct (newTxWallet w) as [t|e'] eqn:Ew; simpl; [done |].
      intros [= <-]. right. right. exists w. simpl in Etx. by rewrite Etx.
    + destruct (truthy v) eqn:Ev; simpl.
      * destruct (newTransferFilter v) as [f|e'] eqn:Ef; simpl.
        -- destruct (state_tx state) as [t|w] eqn:Et; simpl; [done |].
           destruct (newTxWallet w) as [t|e''] eqn:Ew; simpl; [done |].
           intros [= <-]. right. right. exists w. simpl in Etx. by rewrite Etx.
        -- intros [= <-]. right. left. by exists v.
      * destruct (state_tx state) as [t|w] eqn:Et; simpl; [done |].
        destruct (newTxWallet w) as [t|e'] eqn:Ew; simpl; [done |].
        intros [= <-]. right. right. exists w. simpl in Etx. by rewrite Etx.
  - destruct (newTxWalletFromState state) as [t|e'] eqn:Es; simpl.
    + destruct (state_transferFilter state) as [f|v] eqn:Etf; simpl; [done |].
      destruct (truthy v) eqn:Ev; simpl; [| done].
      destruct (newTransferFilter v) as [f|e'] eqn:Ef; simpl; [done |].
      intros [= <-]. right. left. by exists v.
    + intros [= <-]. by left.
Qed.

(** With an instance as template and an instance or nothing as nested
    filter, the constructor stores the state as it was given. *)
Lemma constructor_stores state t :
  state_tx state = TxInstance t ->
  (forall v, state_transferFilter state = FilterOther v -> truthy v = false) ->
  constructor newTxWalletFromState newTxWallet newTransferFilter state = Normal state.
Proof.
  intros Ht Htf. unfold constructor. rewrite Ht. simpl.
  destruct (state_transferFilter state) as [f|v] eqn:Ef; simpl.
  - by rewrite Ht.
  - rewrite (Htf v eq_refl). simpl. by rewrite Ht.
Qed.

(** C7, as the code has it.  The constructor checks nothing and has no
    error of its own: it fails only when the [MoneroTxWallet] or
    [MoneroTransferFilter] constructor it calls on a missing or
    non-instance [tx] or on a non-instance [transferFilter] fails, and
    a state whose [tx] is a [MoneroTxWallet] and whose
    [transferFilter] is absent or a [MoneroTransferFilter] is stored
    as given, whatever the other fields hold.  On a filter whose
    fields all have their declared type, [meetsCriteria] does not
    fail and returns a boolean on every [MoneroTxWallet]; its one
    assertion is on the candidate, which must be a [MoneroTxWallet]. *)
Theorem constructor_checks_nothing :
  (forall state e,
     constructor newTxWalletFromState newTxWallet newTransferFilter state = Throw e ->
     (txArg_truthy (state_tx state) = false /\ newTxWalletFromState state = Throw e)
     \/ (exists v, state_transferFilter state = FilterOther v
                   /\ truthy v = true /\ newTransferFilter v = Throw e)
     \/ (exists v, state_tx state = TxOther v
                   /\ truthy v = true /\ newTxWallet v = Throw e))
  /\ (forall state t,
        state_tx state = TxInstance t ->
        (forall v, state_transferFilter state = FilterOther v -> truthy v = false) ->
        constructor newTxWalletFromState newTxWallet newTransferFilter state
        = Normal state)
  /\ (forall F tx,
        meetsCriteria_untyped transferMeetsCriteria lessThan_coerced greaterThan_coerced
          (stateOf F) (TxInstance tx)
        = Normal (meetsCriteria transferMeetsCriteria F tx))
  /\ (forall state v,
        meetsCriteria_untyped transferMeetsCriteria lessThan_coerced greaterThan_coerced
          state (TxOther v)
        = Throw (AssertionError None)).
Proof.
  split; [apply constructor_Throw | split; [| split]].
  - apply constructor_stores.
  - apply meetsCriteria_untyped_stateOf.
  - done.
Qed.
End TxFilterUntypedFacts.

(* ------------------------------------------------------------------ *)
(** ** The statements at sample data                                   *)
(* ------------------------------------------------------------------ *)

Lemma mergeTx_first_match_or_append_witness :
  sample_heap !! 2%nat = Some sample_confirmed
  /\ (forall r, r ∈ [0%nat; 1%nat] -> is_Some (sample_heap !! r))
  /\ ((exists pre aTx post a,
         [0%nat; 1%nat] = pre ++ aTx :: post
         /\ sample_heap !! aTx = Some a
         /\ sample_getHash a = sample_getHash sample_confirmed
         /\ (forall r b, r ∈ pre -> sample_heap !! r = Some b ->
                         sample_getHash b <> sample_getHash sample_confirmed)
         /\ mergeTx sample_getHash sample_merge sample_heap [0%nat; 1%nat] 2%nat
            = ((sample_merge sample_heap aTx 2%nat).1, [0%nat; 1%nat],
               (sample_merge sample_heap aTx 2%nat).2))
      \/ ((forall r b, r ∈ [0%nat; 1%nat] -> sample_heap !! r = Some b ->
                       sample_getHash b <> sample_getHash sample_confirmed)
          /\ mergeTx sample_getHash sample_merge sample_heap [0%nat; 1%nat] 2%nat
             = (sample_heap, [0%nat; 1%nat] ++ [2%nat], None)))
  /\ mergeTx sample_getHash sample_merge sample_heap [0%nat; 1%nat] 2%nat
     = (<[1%nat := sample_confirmed]> sample_heap, [0%nat; 1%nat], None).
Proof.
  assert (H2 : sample_heap !! 2%nat = Some sample_confirmed) by reflexivity.
  assert (Hall : forall r, r ∈ [0%nat; 1%nat] -> is_Some (sample_heap !! r)).
  { intros r Hr. apply elem_of_cons in Hr as [-> | Hr]; [by eexists |].
    apply elem_of_cons in Hr as [-> | Hr]; [by eexists |]. by apply elem_of_nil in Hr. }
  destruct (mergeTx_first_match_or_append sample_getHash sample_merge
              sample_heap [0%nat; 1%nat] 2%nat sample_confirmed H2 Hall)
    as (Hscan & _ & _).
  split; [exact H2 | split; [exact Hall | split; [exact Hscan | reflexivity]]].
Defined.

Lemma meetsCriteria_monotone_witness :
  constraintsContained sample_idsFilter sample_narrowFilter
  /\ meetsCriteria sample_transferMeetsCriteria sample_narrowFilter sample_tx = true
  /\ meetsCriteria sample_transferMeetsCriteria sample_idsFilter sample_tx = true.
Proof.
  assert (Hc : constraintsContained sample_idsFilter sample_narrowFilter).
  { unfold constraintsContained, setIdentically. simpl.
    repeat split; first [by left | by right]. }
  assert (H2 : meetsCriteria sample_transferMeetsCriteria sample_narrowFilter sample_tx = true)
    by reflexivity.
  split; [exact Hc | split; [exact H2 |]].
  exact (meetsCriteria_monotone sample_transferMeetsCriteria
           sample_idsFilter sample_narrowFilter sample_tx Hc H2).
Defined.

Lemma meetsCriteria_transferFilter_witness :
  getTransferFilter sample_narrowFilter = Some 3%nat
  /\ (matchFound sample_transferMeetsCriteria 3%nat sample_tx = true <->
      exists transfer,
        transfer ∈ transfersOf sample_tx
        /\ sample_transferMeetsCriteria 3%nat transfer = true)
  /\ (transfersOf sample_emptyTx = [] ->
      meetsCriteria sample_transferMeetsCriteria sample_narrowFilter sample_emptyTx = false).
Proof.
  assert (Htf : getTransferFilter sample_narrowFilter = Some 3%nat) by reflexivity.
  split; [exact Htf | split].
  - exact (proj1 (meetsCriteria_transferFilter sample_transferMeetsCriteria
                    sample_narrowFilter 3%nat sample_tx Htf)).
  - exact (proj2 (proj2 (meetsCriteria_transferFilter sample_transferMeetsCriteria
                           sample_narrowFilter 3%nat sample_emptyTx Htf))).
Defined.

Lemma meetsCriteria_height_unknown_witness :
  (getHeight sample_minHeightFilter <> None
   \/ getMinHeight sample_minHeightFilter <> None
   \/ getMaxHeight sample_minHeightFilter <> None)
  /\ heightUnknown sample_emptyTx
  /\ meetsCriteria sample_transferMeetsCriteria sample_minHeightFilter sample_emptyTx = false.
Proof.
  assert (Hset : getHeight sample_minHeightFilter <> None
                 \/ getMinHeight sample_minHeightFilter <> None
                 \/ getMaxHeight sample_minHeightFilter <> None)
    by (right; left; discriminate).
  assert (Hunk : heightUnknown sample_emptyTx) by (left; reflexivity).
  split; [exact Hset | split; [exact Hunk |]].
  exact (meetsCriteria_height_unknown sample_transferMeetsCriteria
           sample_minHeightFilter sample_emptyTx Hset Hunk).
Defined.

Lemma binaryBlocksToJson_structured_witness :
  spansBuffer sample_uint8arr
  /\ allocates sample_wasm (Uint8Array.length sample_uint8arr)
  /\ sample_JSON_parse_blocks (blocksText sample_wasm (Uint8Array.buffer sample_uint8arr))
     = Normal sample_response
  /\ binaryBlocksToJson sample_JSON_parse sample_JSON_parse_blocks (Some sample_wasm)
       sample_uint8arr
     = Normal {| blocks := [JObj []; JObj []]; txs := [[JObj []; JObj []]; []] |}.
Proof.
  assert (Hspan : spansBuffer sample_uint8arr) by (split; reflexivity).
  assert (Halloc : allocates sample_wasm (Uint8Array.length sample_uint8arr))
    by (unfold allocates; simpl; lia).
  assert (Hjson : sample_JSON_parse_blocks
                    (blocksText sample_wasm (Uint8Array.buffer sample_uint8arr))
                  = Normal sample_response) by reflexivity.
  split; [exact Hspan | split; [exact Halloc | split; [exact Hjson |]]].
  apply (proj2 (proj1 (binaryBlocksToJson_structured sample_JSON_parse
                         sample_JSON_parse_blocks sample_wasm sample_uint8arr
                         {| blocks := [JObj []; JObj []]; txs := [[JObj []; JObj []]; []] |}
                         Hspan Halloc))).
  exists sample_response. split; [exact Hjson | split]; simpl.
  - repeat constructor.
  - repeat constructor.
Defined.

Lemma provider_unavailable_before_load_witness :
  exists e,
    validateAddress sample_isBase58 sample_validateNetworkType None (JStr "4A") (JNum 0)
    = Throw e
    /\ jsonToBinary None (JObj []) = Throw e
    /\ binaryBlocksToJson sample_JSON_parse sample_JSON_parse_blocks None sample_uint8arr
       = Throw e.
Proof.
  assert (Hne : "4A" <> "") by discriminate.
  assert (Hb : sample_isBase58 "4A" = true) by reflexivity.
  assert (Hnt : sample_validateNetworkType (JNum 0) = Normal tt) by reflexivity.
  destruct (provider_unavailable_before_load sample_isBase58 sample_validateNetworkType
              sample_JSON_parse sample_JSON_parse_blocks)
    as ((e & Hj & _ & Hbl & Hv) & _).
  exists e. split; [| split].
  - exact (Hv "4A" (JNum 0) tt Hne Hb Hnt).
  - exact (Hj (JObj [])).
  - exact (Hbl sample_uint8arr).
Defined.

Lemma constructor_checks_nothing_witness :
  state_tx sample_badState = TxInstance sample_emptyTx
  /\ (forall v, state_transferFilter sample_badState = FilterOther v -> truthy v = false)
  /\ constructor sample_newTxWalletFromState sample_newTxWallet sample_newTransferFilter
       sample_badState
     = Normal sample_badState.
Proof.
  assert (Ht : state_tx sample_badState = TxInstance sample_emptyTx) by reflexivity.
  assert (Hf : forall v, state_transferFilter sample_badState = FilterOther v ->
                         truthy v = false) by (intros v [= <-]; reflexivity).
  destruct (constructor_checks_nothing sample_transferMeetsCriteria
              sample_newTxWalletFromState sample_newTxWallet sample_newTransferFilter
              sample_coerced sample_coerced)
    as (_ & Hstore & _).
  split; [exact Ht | split; [exact Hf |]].
  exact (Hstore sample_badState sample_emptyTx Ht Hf).
Defined.

(* ------------------------------------------------------------------ *)
(** ** Where the specification and the code part                       *)
(* ------------------------------------------------------------------ *)

(** C3 as stated fails: a template that sets a block puts no constraint
    on the candidate's block.  The filter below has nothing but such a
    template, and accepts a candidate without block. *)
Lemma meetsCriteria_template_block_ignored :
  getTx sample_blockFilter = Some sample_blockTemplate
  /\ getBlock sample_blockTemplate <> None
  /\ getBlock sample_emptyTx = None
  /\ meetsCriteria sample_transferMeetsCriteria sample_blockFilter sample_emptyTx = true.
Proof. repeat split; done. Qed.

(** C7 as stated fails: a state whose [txIds] is the number 5 is not
    the state of a well-typed filter, the constructor accepts it, and
    the failure comes at evaluation, as a TypeError; a state whose
    [txIds] is the string "aabb" is accepted too, and the filter then
    accepts the id "ab" without any failure. *)
Lemma constructor_accepts_malformed_state :
  ~ wellFormed sample_badState
  /\ constructor sample_newTxWalletFromState sample_newTxWallet sample_newTransferFilter
       sample_badState
     = Normal sample_badState
  /\ meetsCriteria_untyped sample_transferMeetsCriteria sample_coerced sample_coerced
       sample_badState (TxInstance sample_emptyTx)
     = Throw TypeError
  /\ ~ wellFormed sample_stringIdsState
  /\ constructor sample_newTxWalletFromState sample_newTxWallet sample_newTransferFilter
       sample_stringIdsState
     = Normal sample_stringIdsState
  /\ meetsCriteria_untyped sample_transferMeetsCriteria sample_coerced sample_coerced
       sample_stringIdsState (TxInstance sample_abTx)
     = Normal true.
Proof.
  assert (Hill : forall state : FilterState nat nat,
             (forall ids, state_txIds state <> JArr ids) ->
             state_txIds state <> JUndefined -> ~ wellFormed state).
  { intros state Harr Hdef [F ->]. simpl in *.
    destruct (getTxIds F) as [ids|]; simpl in *; [by eapply Harr | done]. }
  split; [by apply Hill |]. do 2 (split; [reflexivity |]).
  split; [by apply Hill |]. split; reflexivity.
Qed.

(** C9 as stated fails: a transaction string that is a text without
    its opening brace, and without comma, gets no brace put in; the text
    parsed is the string with one more closing brace, and the call
    throws instead of yielding a record.  And an array that is a window
    of a larger buffer does not get to the module at all. *)
Lemma binaryBlocksToJson_unbraced_tx_throws :
  spansBuffer sample_unbracedArr
  /\ allocates sample_wasm (Uint8Array.length sample_unbracedArr)
  /\ sample_JSON_parse_blocks (blocksText sample_wasm (Uint8Array.buffer sample_unbracedArr))
     = Normal {| json_blocks := []; json_txs := [Some ["}"]] |}
  /\ replace "," "{" "}" +:+ "}" = "}}"
  /\ sample_JSON_parse "}}" = Throw SyntaxError
  /\ binaryBlocksToJson sample_JSON_parse sample_JSON_parse_blocks (Some sample_wasm)
       sample_unbracedArr
     = Throw SyntaxError
  /\ binaryBlocksToJson sample_JSON_parse sample_JSON_parse_blocks (Some sample_wasm)
       sample_subarray
     = Throw RangeError.
Proof.
  split; [by split |]. split; [unfold allocates; simpl; lia |].
  repeat split; reflexivity.
Qed.

(** C8 as stated fails: before the module is loaded, [validateAddress]
    on the empty string, or on a value that is not a string, fails its
    argument check, not the module check. *)
Lemma validateAddress_argument_check_first :
  validateAddress sample_isBase58 sample_validateNetworkType None (JStr "") (JNum 0)
  = Throw (AssertionError (Some "Address is empty"))
  /\ validateAddress sample_isBase58 sample_validateNetworkType None (JNum 7) (JNum 0)
     = Throw (AssertionError (Some "Address is not string"))
  /\ validateAddress sample_isBase58 sample_validateNetworkType None (JStr "") (JNum 0)
     <> Throw (MoneroError wasmNotLoaded).
Proof. repeat split; done. Qed.

(* ================================================================== *)
(** * Part III. Further properties of the code                         *)
(* ================================================================== *)

(* ------------------------------------------------------------------ *)
(** ** Payment ids as zero-padded strings                              *)
(* ------------------------------------------------------------------ *)

Lemma charAt_ext (a b : string) :
  (forall i, charAt a i = charAt b i) -> a = b.
Proof.
  unfold charAt. revert b. induction a as [|x a IH]; intros [|y b] H.
  - done.
  - by specialize (H 0%nat).
  - by specialize (H 0%nat).
  - pose proof (H 0%nat) as H0. simpl in H0. injection H0 as ->.
    f_equal. apply IH. intros i. apply (H (S i)).
Qed.

Lemma charAt_app_l (a b : string) (i : nat) :
  (i < String.length a)%nat -> charAt (a +:+ b) i = charAt a i.
Proof.
  unfold charAt. revert i. induction a as [|x a IH]; intros i Hi; simpl in *; [lia |].
  destruct i as [|i]; [done |]. apply IH. lia.
Qed.

Lemma charAt_app_r (a b : string) (i : nat) :
  charAt (a +:+ b) (String.length a + i) = charAt b i.
Proof. unfold charAt. induction a as [|x a IH]; simpl; done. Qed.

Lemma string_length_app (a b : string) :
  String.length (a +:+ b) = (String.length a + String.length b)%nat.
Proof. induction a as [|x a IH]; simpl; [done | by rewrite IH]. Qed.

Lemma length_zeros (n : nat) : String.length (zeros n) = n.
Proof. induction n as [|n IH]; simpl; [done | by rewrite IH]. Qed.

Lemma charAt_zeros (n i : nat) : (i < n)%nat -> charAt (zeros n) i = Some "0"%char.
Proof.
  unfold charAt. revert i. induction n as [|n IH]; intros i Hi; simpl; [lia |].
  destruct i as [|i]; [done |]. apply IH. lia.
Qed.

(** The rule of the comparison, index by index. *)
Lemma paymentIdsEqual_rule (a b : string) :
  paymentIdsEqual a b = true <->
    forall i, (i < String.length a `max` String.length b)%nat ->
      ((i < String.length a)%nat -> (i < String.length b)%nat -> charAt a i = charAt b i)
      /\ ((String.length a <= i)%nat -> charAt b i = Some "0"%char)
      /\ ((String.length b <= i)%nat -> charAt a i = Some "0"%char).
Proof.
  unfold paymentIdsEqual. rewrite paymentIdsEqual_from_true. split.
  - intros H i Hi. apply paymentIdsDiffer_false. apply H. lia.
  - intros H i Hi. apply paymentIdsDiffer_false. apply H. lia.
Qed.

(** Two ids compare equal exactly when they are the same once each is
    continued with '0' for ever. *)
Lemma paymentIdsEqual_padded (a b : string) :
  paymentIdsEqual a b = true <-> forall i, paddedCharAt a i = paddedCharAt b i.
Proof.
  rewrite paymentIdsEqual_rule. unfold paddedCharAt. split.
  - intros H i.
    destruct (decide (i < String.length a `max` String.length b)%nat) as [Hi|Hi].
    + destruct (H i Hi) as (H1 & H2 & H3).
      destruct (decide (i < String.length a)%nat) as [Ha|Ha];
        destruct (decide (i < String.length b)%nat) as [Hb|Hb].
      * by rewrite H1.
      * rewrite H3 by lia. by rewrite (charAt_undefined b i) by lia.
      * rewrite H2 by lia. by rewrite (charAt_undefined a i) by lia.
      * lia.
    + by rewrite (charAt_undefined a i), (charAt_undefined b i) by lia.
  - intros H i Hi. specialize (H i). repeat split.
    + intros Ha Hb. destruct (charAt_defined a i Ha) as [x Hx].
      destruct (charAt_defined b i Hb) as [y Hy]. rewrite Hx, Hy in *. by subst.
    + intros Ha. rewrite (charAt_undefined a i Ha) in H.
      destruct (charAt_defined b i) as [y Hy]; [lia |]. rewrite Hy in *. by subst.
    + intros Hb. rewrite (charAt_undefined b i Hb) in H.
      destruct (charAt_defined a i) as [x Hx]; [lia |]. rewrite Hx in *. by subst.
Qed.

Lemma paymentIdsEqual_false_padded (a b : string) :
  paymentIdsEqual a b = false <-> ~ forall i, paddedCharAt a i = paddedCharAt b i.
Proof.
  rewrite <- paymentIdsEqual_padded. destruct (paymentIdsEqual a b); split; try done.
Qed.

(** X1. [paymentIdsEqual] is an equivalence: every id equals itself,
    the order of the two arguments does not matter, and two ids equal
    to a third are equal to each other. *)
Theorem paymentIdsEqual_equivalence :
  (forall a, paymentIdsEqual a a = true)
  /\ (forall a b, paymentIdsEqual a b = paymentIdsEqual b a)
  /\ (forall a b c,
        paymentIdsEqual a b = true -> paymentIdsEqual b c = true ->
        paymentIdsEqual a c = true).
Proof.
  split; [| split].
  - intros a. by apply paymentIdsEqual_padded.
  - intros a b. destruct (paymentIdsEqual b a) eqn:E.
    + apply paymentIdsEqual_padded. intros i. symmetry. revert i.
      by apply paymentIdsEqual_padded.
    + apply paymentIdsEqual_false_padded. intros H.
      apply paymentIdsEqual_false_padded in E. apply E. intros i. by rewrite H.
  - intros a b c Hab Hbc. apply paymentIdsEqual_padded. intros i.
    rewrite (proj1 (paymentIdsEqual_padded a b) Hab i).
    apply (proj1 (paymentIdsEqual_padded b c) Hbc i).
Qed.

(** X2. On two ids of the same length [paymentIdsEqual] is equality of
    strings. *)
Theorem paymentIdsEqual_same_length (a b : string) :
  String.length a = String.length b ->
  (paymentIdsEqual a b = true <-> a = b).
Proof.
  intros Hlen. split.
  - intros H. apply charAt_ext. intros i.
    destruct (decide (i < String.length a)%nat) as [Hi|Hi].
    + destruct (proj1 (paymentIdsEqual_rule a b) H i) as (H1 & _); [lia |].
      apply H1; lia.
    + by rewrite (charAt_undefined a i), (charAt_undefined b i) by lia.
  - intros ->. by apply paymentIdsEqual_padded.
Qed.

(** X3. An id followed by more characters equals the id exactly when
    those characters are all '0'. *)
Theorem paymentIdsEqual_suffix (p s : string) :
  paymentIdsEqual p (p +:+ s) = true <-> s = zeros (String.length s).
Proof.
  rewrite paymentIdsEqual_rule, string_length_app. split.
  - intros H. apply charAt_ext. intros i.
    destruct (decide (i < String.length s)%nat) as [Hi|Hi].
    + rewrite charAt_zeros by done.
      destruct (H (String.length p + i)%nat) as (_ & H2 & _); [lia |].
      rewrite charAt_app_r in H2. apply H2. lia.
    + rewrite (charAt_undefined s i) by lia.
      by rewrite (charAt_undefined (zeros _) i) by (rewrite length_zeros; lia).
  - intros Hs i Hi. repeat split.
    + intros Ha _. by rewrite charAt_app_l.
    + intros Ha. replace i with (String.length p + (i - String.length p))%nat by lia.
      rewrite charAt_app_r, Hs. apply charAt_zeros. lia.
    + intros Hb. lia.
Qed.

(* ------------------------------------------------------------------ *)
(** ** The validators                                                  *)
(* ------------------------------------------------------------------ *)

Lemma paymentIdsEqual_zeros (p : string) (n : nat) :
  paymentIdsEqual p (p +:+ zeros n) = true.
Proof.
  apply paymentIdsEqual_padded. intros i. unfold paddedCharAt.
  destruct (decide (i < String.length p)%nat) as [Hi|Hi].
  - by rewrite charAt_app_l.
  - rewrite (charAt_undefined p i) by lia.
    replace i with (String.length p + (i - String.length p))%nat by lia.
    rewrite charAt_app_r.
    destruct (decide (i - String.length p < n)%nat) as [Hn|Hn].
    + by rewrite charAt_zeros.
    + by rewrite charAt_undefined by (rewrite length_zeros; lia).
Qed.

(** X4. [isValidPaymentId] answers [true] exactly on the strings of 16
    or of 64 characters, whatever the characters; a 16-character id
    continued with 48 zeros is valid again and equal to the id it
    continues. *)
Theorem isValidPaymentId_lengths :
  (forall v,
     isValidPaymentId v = true <->
     exists s, v = JStr s /\ (String.length s = 16%nat \/ String.length s = 64%nat))
  /\ (forall p,
        String.length p = 16%nat ->
        isValidPaymentId (JStr p) = true
        /\ isValidPaymentId (JStr (p +:+ zeros 48)) = true
        /\ paymentIdsEqual p (p +:+ zeros 48) = true).
Proof.
  assert (Hstr : forall s,
             isValidPaymentId (JStr s) = true <->
             String.length s = 16%nat \/ String.length s = 64%nat).
  { intros s. unfold isValidPaymentId, validatePaymentId, assert. simpl.
    destruct (Nat.eqb_spec (String.length s) 16) as [H16|H16];
      destruct (Nat.eqb_spec (String.length s) 64) as [H64|H64]; simpl;
      split; try done; try tauto; intros [?|?]; done. }
  split.
  - intros v. split.
    + intros H. destruct v as [| | | |s| |]; try done.
      exists s. split; [done |]. by apply Hstr.
    + intros (s & -> & Hs). by apply Hstr.
  - intros p Hp. split; [| split].
    + apply Hstr. by left.
    + apply Hstr. right. rewrite string_length_app, length_zeros. lia.
    + apply paymentIdsEqual_zeros.
Qed.

(** X5. Each of the four key validators returns exactly on the strings
    of 64 characters, whatever the characters, and throws an assertion
    error on every other value; the four are one function. *)
Theorem validateKey_length (key : JsVal) :
  (validatePrivateViewKey key = Normal tt <->
     exists s, key = JStr s /\ String.length s = 64%nat)
  /\ (validatePrivateViewKey key = Normal tt
      \/ validatePrivateViewKey key = Throw (AssertionError None))
  /\ validatePrivateSpendKey key = validatePrivateViewKey key
  /\ validatePublicViewKey key = validatePrivateViewKey key
  /\ validatePublicSpendKey key = validatePrivateViewKey key.
Proof.
  unfold validatePrivateSpendKey, validatePublicViewKey, validatePublicSpendKey,
    validatePrivateViewKey, validateKey, assert.
  split; [| split; [| done]].
  - destruct key as [| | | |s| |]; simpl; try (split; [done | by intros (s' & ? & _)]).
    destruct (Nat.eqb_spec (String.length s) 64) as [H|H]; split; try done.
    + intros _. by exists s.
    + intros (s' & [= <-] & Hs). done.
  - destruct key as [| | | |s| |]; simpl; try by right.
    destruct (String.length s =? 64)%nat; [by left | by right].
Qed.

Lemma split_length (sep : ascii) (s : string) :
  length (split sep s) = S (occurrences sep s).
Proof.
  induction s as [|c s IH]; simpl; [done |].
  destruct (Ascii.eqb c sep); simpl; [by rewrite IH |].
  destruct (split sep s) as [|w ws]; simpl in *; [done | exact IH].
Qed.

(** X6. [validateMnemonic] accepts a string exactly when it holds 24
    spaces, whatever stands between them; a non-empty string with
    another number of spaces is refused with the count of its pieces
    in the message, the empty string by the assertion, and a truthy
    value that is not a string by a TypeError. *)
Theorem validateMnemonic_counts_spaces :
  (forall s, validateMnemonic (JStr s) = Normal tt <-> occurrences " " s = 24%nat)
  /\ (forall s,
        s <> "" -> occurrences " " s <> 24%nat ->
        validateMnemonic (JStr s)
        = Throw (Error (mnemonicWordsMessage (S (occurrences " " s)))))
  /\ validateMnemonic (JStr "")
     = Throw (AssertionError (Some "Mnemonic phrase is not initialized"))
  /\ (forall v,
        truthy v = true -> typeOf v <> "string" ->
        validateMnemonic v = Throw TypeError).
Proof.
  assert (Hne : forall s, s <> "" ->
            validateMnemonic (JStr s)
            = if (S (occurrences " " s) =? NUM_MNEMONIC_WORDS)%nat then Normal tt
              else Throw (Error (mnemonicWordsMessage (S (occurrences " " s))))).
  { intros s Hs. unfold validateMnemonic, assert.
    destruct s as [|c s]; [done |]. cbn [truthy String.eqb negb].
    change (Normal tt ≫= ?k) with (k tt). cbv beta iota.
    rewrite split_length. by destruct (S (occurrences " " (String c s)) =? _)%nat. }
  split; [| split; [| split]].
  - intros s. destruct (decide (s = "")) as [->|Hs]; [done |].
    rewrite (Hne s Hs). unfold NUM_MNEMONIC_WORDS.
    destruct (Nat.eqb_spec (S (occurrences " " s)) 25) as [H|H]; split; try done; lia.
  - intros s Hs Hn. rewrite (Hne s Hs). unfold NUM_MNEMONIC_WORDS.
    destruct (Nat.eqb_spec (S (occurrences " " s)) 25) as [H|H]; [lia | done].
  - done.
  - intros v Hv Ht. unfold validateMnemonic, assert. rewrite Hv.
    destruct v; try done.
Qed.

(* ------------------------------------------------------------------ *)
(** ** The last public key of a tx extra                               *)
(* ------------------------------------------------------------------ *)

(** One pass of the loop. *)
Lemma getLastTxPubKey_loop_S (fuel : nat) (txExtra : list N) (i : nat)
    (last : option nat) :
  getLastTxPubKey_loop (S fuel) txExtra i last
  = match txExtra !! i with
    | None => Normal last
    | Some tag =>
        if (tag =? 0)%N || (tag =? 2)%N then
          match txExtra !! (i + 1)%nat with
          | None => Normal last
          | Some len =>
              getLastTxPubKey_loop fuel txExtra (i + (1 + N.to_nat len) + 1)%nat last
          end
        else if (tag =? 1)%N then
          getLastTxPubKey_loop fuel txExtra (i + (1 + 32) + 1)%nat (Some (i + 1)%nat)
        else Throw (Error ("Invalid sub-field tag: " +:+ pretty tag))
    end.
Proof. reflexivity. Qed.

(** Once the passes left reach the end of the array, one more pass
    changes nothing. *)
Lemma getLastTxPubKey_loop_enough (fuel : nat) (txExtra : list N) (i : nat)
    (last : option nat) :
  (length txExtra <= i + fuel)%nat ->
  getLastTxPubKey_loop (S fuel) txExtra i last = getLastTxPubKey_loop fuel txExtra i last.
Proof.
  revert i last. induction fuel as [|fuel IH]; intros i last Hlen.
  - simpl. rewrite (lookup_ge_None_2 txExtra i) by lia. done.
  - rewrite (getLastTxPubKey_loop_S (S fuel) txExtra i last),
      (getLastTxPubKey_loop_S fuel txExtra i last).
    destruct (txExtra !! i) as [tag|]; [| done].
    destruct ((tag =? 0)%N || (tag =? 2)%N).
    + destruct (txExtra !! (i + 1)%nat) as [len|]; [| done]. apply IH. lia.
    + destruct (tag =? 1)%N; [| done]. apply IH. lia.
Qed.

Lemma getLastTxPubKey_loop_more (extra fuel : nat) (txExtra : list N) (i : nat)
    (last : option nat) :
  (length txExtra <= i + fuel)%nat ->
  getLastTxPubKey_loop (extra + fuel) txExtra i last
  = getLastTxPubKey_loop fuel txExtra i last.
Proof.
  intros Hlen. induction extra as [|extra IH]; [done |].
  change (S extra + fuel)%nat with (S (extra + fuel)).
  rewrite getLastTxPubKey_loop_enough by lia. exact IH.
Qed.

(** The index found so far matters only if the rest of the scan finds
    no public key. *)
Lemma getLastTxPubKey_loop_last (fuel : nat) (txExtra : list N) (i : nat)
    (last : option nat) :
  getLastTxPubKey_loop fuel txExtra i last
  = (o ← getLastTxPubKey_loop fuel txExtra i None;
     Normal (match o with Some k => Some k | None => last end)).
Proof.
  revert i last. induction fuel as [|fuel IH]; intros i last; simpl; [done |].
  destruct (txExtra !! i) as [tag|]; [| done].
  destruct ((tag =? 0)%N || (tag =? 2)%N).
  - destruct (txExtra !! (i + 1)%nat) as [len|]; [| done]. apply IH.
  - destruct (tag =? 1)%N; [| done].
    rewrite (IH _ (Some (i + 1)%nat)).
    by destruct (getLastTxPubKey_loop fuel txExtra _ None) as [[k|]|e].
Qed.

(** Scanning behind a prefix is scanning the rest, with the indices
    moved by the length of the prefix. *)
Lemma getLastTxPubKey_loop_shift (fuel : nat) (pre txExtra : list N) (i : nat) :
  getLastTxPubKey_loop fuel (pre ++ txExtra) (length pre + i) None
  = (o ← getLastTxPubKey_loop fuel txExtra i None;
     Normal (shiftIdx (length pre) o)).
Proof.
  revert i. induction fuel as [|fuel IH]; intros i; [done |].
  assert (Hidx : forall j j',
             j = (length pre + j')%nat ->
             getLastTxPubKey_loop fuel (pre ++ txExtra) j None
             = (o ← getLastTxPubKey_loop fuel txExtra j' None;
                Normal (shiftIdx (length pre) o)))
    by (intros j j' ->; apply IH).
  rewrite !getLastTxPubKey_loop_S.
  rewrite lookup_app_r by lia.
  replace (length pre + i - length pre)%nat with i by lia.
  destruct (txExtra !! i) as [tag|]; [| done].
  destruct ((tag =? 0)%N || (tag =? 2)%N).
  - rewrite lookup_app_r by lia.
    replace (length pre + i + 1 - length pre)%nat with (i + 1)%nat by lia.
    destruct (txExtra !! (i + 1)%nat) as [len|]; [| done].
    apply Hidx. lia.
  - destruct (tag =? 1)%N; [| done].
    rewrite getLastTxPubKey_loop_last.
    rewrite (getLastTxPubKey_loop_last fuel txExtra _ (Some (i + 1)%nat)).
    rewrite (Hidx _ (i + (1 + 32) + 1)%nat) by lia.
    destruct (getLastTxPubKey_loop fuel txExtra _ None) as [[k|]|e];
      simpl; try done.
    do 2 f_equal. lia.
Qed.

(** The scan of what follows a prefix, started behind the prefix with
    passes to spare. *)
Lemma lastPubKeyIdxOf_behind (extra : nat) (pre txExtra : list N) :
  getLastTxPubKey_loop (extra + length txExtra) (pre ++ txExtra) (length pre) None
  = (o ← lastPubKeyIdxOf txExtra; Normal (shiftIdx (length pre) o)).
Proof.
  rewrite getLastTxPubKey_loop_more by (rewrite length_app; lia).
  pose proof (getLastTxPubKey_loop_shift (length txExtra) pre txExtra 0) as H.
  rewrite Nat.add_0_r in H. exact H.
Qed.

Lemma slice32_behind (pre txExtra : list N) (k : nat) :
  slice32 (pre ++ txExtra) (Some (length pre + k)%nat) = slice32 txExtra (Some k).
Proof. unfold slice32. by rewrite drop_app_add'. Qed.

Lemma lastPubKeyIdxOf_lengthField (tag : N) (data txExtra : list N) :
  tag = 0%N \/ tag = 2%N ->
  lastPubKeyIdxOf (lengthField tag data ++ txExtra)
  = (o ← lastPubKeyIdxOf txExtra;
     Normal (shiftIdx (length (lengthField tag data)) o)).
Proof.
  intros Htag. unfold lastPubKeyIdxOf at 1.
  replace (length (lengthField tag data ++ txExtra))
    with (S (S (length data) + length txExtra))
    by (rewrite length_app; unfold lengthField; simpl; lia).
  rewrite getLastTxPubKey_loop_S.
  change ((lengthField tag data ++ txExtra) !! 0%nat) with (Some tag).
  change ((lengthField tag data ++ txExtra) !! (0 + 1)%nat)
    with (Some (N.of_nat (length data))).
  assert (Htest : (tag =? 0)%N || (tag =? 2)%N = true)
    by (destruct Htag as [-> | ->]; done).
  cbv beta iota. rewrite Htest. rewrite Nat2N.id.
  replace (0 + (1 + length data) + 1)%nat with (length (lengthField tag data))
    by (unfold lengthField; simpl; lia).
  apply lastPubKeyIdxOf_behind.
Qed.

(** X7. A field with a length byte (tag 0 or 2) at the front is stepped
    over: the answer is that for the rest of the array. *)
Theorem getLastTxPubKey_lengthField (tag : N) (data txExtra : list N) :
  tag = 0%N \/ tag = 2%N ->
  getLastTxPubKey (lengthField tag data ++ txExtra) = getLastTxPubKey txExtra.
Proof.
  intros Htag. unfold getLastTxPubKey.
  rewrite (lastPubKeyIdxOf_lengthField tag data txExtra Htag).
  destruct (lastPubKeyIdxOf txExtra) as [[k|]|e]; [| done | done].
  change (Normal (toHex (slice32 (lengthField tag data ++ txExtra)
                           (Some (length (lengthField tag data) + k)%nat)))
          = Normal (toHex (slice32 txExtra (Some k)))).
  by rewrite slice32_behind.
Qed.

Lemma getLastTxPubKey_loop_past_end (fuel : nat) (txExtra : list N) (i : nat)
    (last : option nat) :
  (length txExtra <= i)%nat ->
  getLastTxPubKey_loop fuel txExtra i last = Normal last.
Proof.
  intros Hlen. destruct fuel as [|fuel]; [done |].
  rewrite getLastTxPubKey_loop_S. by rewrite (lookup_ge_None_2 txExtra i) by lia.
Qed.

Lemma lastPubKeyIdxOf_pubKeyField (key : list N) (b : N) (txExtra : list N) :
  length key = 32%nat ->
  lastPubKeyIdxOf (pubKeyField key ++ b :: txExtra)
  = (o ← lastPubKeyIdxOf txExtra;
     Normal (match o with
             | Some k => Some (length (pubKeyField key ++ [b]) + k)%nat
             | None => Some 1%nat
             end)).
Proof.
  intros Hkey. unfold lastPubKeyIdxOf at 1.
  replace (length (pubKeyField key ++ b :: txExtra)) with (S (33 + length txExtra))
    by (rewrite length_app; unfold pubKeyField; simpl; lia).
  rewrite getLastTxPubKey_loop_S.
  change ((pubKeyField key ++ b :: txExtra) !! 0%nat) with (Some 1%N).
  cbv beta iota. change ((1 =? 0)%N || (1 =? 2)%N) with false.
  change (1 =? 1)%N with true. cbv beta iota.
  rewrite getLastTxPubKey_loop_last.
  replace (pubKeyField key ++ b :: txExtra) with ((pubKeyField key ++ [b]) ++ txExtra)
    by (by rewrite <- app_assoc).
  replace (0 + (1 + 32) + 1)%nat with (length (pubKeyField key ++ [b]))
    by (rewrite length_app; unfold pubKeyField; simpl; lia).
  rewrite lastPubKeyIdxOf_behind.
  by destruct (lastPubKeyIdxOf txExtra) as [[k|]|e].
Qed.

(** X8. After a public-key field (tag 1 and 32 bytes) the scan resumes
    two places behind the key's last byte: the byte that follows the
    key is never read.  The answer is that for what comes after this
    byte when a public key is found there, and the key of this field in
    hexadecimal otherwise; an error behind is passed on. *)
Theorem getLastTxPubKey_pubKeyField (key : list N) (b : N) (txExtra : list N) :
  length key = 32%nat ->
  getLastTxPubKey (pubKeyField key ++ b :: txExtra)
  = match lastPubKeyIdxOf txExtra with
    | Normal (Some _) => getLastTxPubKey txExtra
    | Normal None => Normal (toHex key)
    | Throw e => Throw e
    end.
Proof.
  intros Hkey. unfold getLastTxPubKey.
  rewrite (lastPubKeyIdxOf_pubKeyField key b txExtra Hkey).
  destruct (lastPubKeyIdxOf txExtra) as [[k|]|e]; [| | done].
  - change (Normal (toHex (slice32 (pubKeyField key ++ b :: txExtra)
                             (Some (length (pubKeyField key ++ [b]) + k)%nat)))
            = Normal (toHex (slice32 txExtra (Some k)))).
    replace (pubKeyField key ++ b :: txExtra) with ((pubKeyField key ++ [b]) ++ txExtra)
      by (by rewrite <- app_assoc).
    by rewrite slice32_behind.
  - change (Normal (toHex (slice32 (pubKeyField key ++ b :: txExtra) (Some 1%nat)))
            = Normal (toHex key)).
    unfold slice32, pubKeyField. simpl.
    rewrite drop_0, take_app_length' by done. done.
Qed.

(** X9. At the ends of the array nothing is checked.  The empty array
    gives the empty string; a public-key field cut short gives the
    bytes that are there; a field whose length byte is missing, or
    whose length runs to the end of the array or beyond, gives the
    empty string.  The one error is a first tag other than 0, 1 or 2,
    reported with the tag in the message. *)
Theorem getLastTxPubKey_edges :
  getLastTxPubKey [] = Normal ""
  /\ (forall key,
        (length key <= 32)%nat ->
        getLastTxPubKey (pubKeyField key) = Normal (toHex key))
  /\ (forall tag,
        tag = 0%N \/ tag = 2%N -> getLastTxPubKey [tag] = Normal "")
  /\ (forall tag len data,
        tag = 0%N \/ tag = 2%N -> (length data <= N.to_nat len)%nat ->
        getLastTxPubKey (tag :: len :: data) = Normal "")
  /\ (forall tag txExtra,
        tag <> 0%N -> tag <> 1%N -> tag <> 2%N ->
        getLastTxPubKey (tag :: txExtra)
        = Throw (Error ("Invalid sub-field tag: " +:+ pretty tag))).
Proof.
  split; [done | split; [| split; [| split]]].
  - intros key Hkey. unfold getLastTxPubKey, lastPubKeyIdxOf, pubKeyField.
    change (length (1%N :: key)) with (S (length key)).
    rewrite getLastTxPubKey_loop_S.
    change ((1%N :: key) !! 0%nat) with (Some 1%N). cbv beta iota.
    change ((1 =? 0)%N || (1 =? 2)%N) with false. change (1 =? 1)%N with true.
    cbv beta iota. rewrite getLastTxPubKey_loop_past_end by (simpl; lia).
    change (Normal (toHex (take 32 key)) = Normal (toHex key)).
    by rewrite take_ge by lia.
  - intros tag [-> | ->]; done.
  - intros tag len data Htag Hlen. unfold getLastTxPubKey, lastPubKeyIdxOf.
    change (length (tag :: len :: data)) with (S (S (length data))).
    rewrite getLastTxPubKey_loop_S.
    change ((tag :: len :: data) !! 0%nat) with (Some tag).
    change ((tag :: len :: data) !! (0 + 1)%nat) with (Some len). cbv beta iota.
    assert (Htest : (tag =? 0)%N || (tag =? 2)%N = true)
      by (destruct Htag as [-> | ->]; done).
    rewrite Htest. by rewrite getLastTxPubKey_loop_past_end by (simpl; lia).
  - intros tag txExtra H0 H1 H2. unfold getLastTxPubKey, lastPubKeyIdxOf.
    change (length (tag :: txExtra)) with (S (length txExtra)).
    rewrite getLastTxPubKey_loop_S.
    change ((tag :: txExtra) !! 0%nat) with (Some tag). cbv beta iota.
    apply N.eqb_neq in H0, H1, H2. by rewrite H0, H1, H2.
Qed.

Lemma toHex_length (bytes : list N) :
  String.length (toHex bytes) = (2 * length bytes)%nat.
Proof. induction bytes as [|b bytes IH]; simpl; [done | rewrite IH; lia]. Qed.

Lemma toHex_digits (bytes : list N) (i : nat) (c : ascii) :
  charAt (toHex bytes) i = Some c ->
  exists d, (d < 16)%N /\ c = hexDigit d.
Proof.
  revert i. induction bytes as [|b bytes IH]; intros i; simpl; [done |].
  destruct i as [|[|i]]; simpl.
  - intros [= <-]. exists (toUint8 b / 16)%N. split; [| done].
    unfold toUint8. apply N.Div0.div_lt_upper_bound.
    apply (N.mod_upper_bound b 256). done.
  - intros [= <-]. exists (toUint8 b mod 16)%N. split; [| done].
    by apply N.mod_upper_bound.
  - apply IH.
Qed.

(** X10. Whatever the array, an answer of [getLastTxPubKey] is written
    in the digits 0-9 and a-f, two per byte, for at most 32 bytes: its
    length is even and at most 64. *)
Theorem getLastTxPubKey_hex (txExtra : list N) (s : string) :
  getLastTxPubKey txExtra = Normal s ->
  (exists n, (n <= 32)%nat /\ String.length s = (2 * n)%nat)
  /\ (forall i c, charAt s i = Some c -> exists d, (d < 16)%N /\ c = hexDigit d).
Proof.
  unfold getLastTxPubKey.
  destruct (lastPubKeyIdxOf txExtra) as [o|e]; [| done].
  intros [= <-]. split.
  - exists (length (slice32 txExtra o)). split; [| apply toHex_length].
    destruct o as [k|]; simpl; [| lia]. rewrite length_take. lia.
  - apply toHex_digits.
Qed.

(* ------------------------------------------------------------------ *)
(** ** Lists of transactions under [mergeTx]                           *)
(* ------------------------------------------------------------------ *)

Section MergeTxMore.
Context {MoneroTx : Type}.
Variable getHash : MoneroTx -> option string.
Variable merge : gmap ref MoneroTx -> ref -> ref -> gmap ref MoneroTx * option JsError.

(** What the scan can end in, whatever the slots hold. *)
Lemma mergeTx_loop_cases (h : gmap ref MoneroTx) (txs : list ref) (tx : ref) :
  match mergeTx_loop getHash merge h txs tx with
  | None => True
  | Some res =>
      (exists aTx, aTx ∈ txs /\ res = merge h aTx tx)
      \/ (res = (h, Some TypeError)
          /\ (h !! tx = None \/ exists aTx, aTx ∈ txs /\ h !! aTx = None))
  end.
Proof.
  induction txs as [|aTx txs' IH]; simpl; [done |].
  destruct (h !! aTx) as [a|] eqn:Ea.
  - destruct (h !! tx) as [t|] eqn:Et.
    + destruct (strictEq (getHash a) (getHash t)).
      * left. exists aTx. split; [by left | done].
      * destruct (mergeTx_loop getHash merge h txs' tx) as [res|]; [| done].
        destruct IH as [(x & Hx & ->) | (-> & [Hn | (x & Hx & Hn)])].
        -- left. exists x. split; [by right | done].
        -- congruence.
        -- right. split; [done |]. right. exists x. split; [by right | done].
    + right. split; [done | by left].
  - right. split; [done |]. right. exists aTx. split; [by left | done].
Qed.

(** X11. Whatever the list and the heap hold, [mergeTx] ends in one of
    three ways: it appended [tx] and touched nothing else; it called
    [merge] on one entry of the list and left the list as it was; or a
    slot (or [tx]) was undefined, and it threw a TypeError with list
    and heap as they were.  No entry is ever removed or moved. *)
Theorem mergeTx_outcomes (h : gmap ref MoneroTx) (txs : list ref) (tx : ref) :
  mergeTx getHash merge h txs tx = (h, txs ++ [tx], None)
  \/ (exists aTx,
        aTx ∈ txs
        /\ mergeTx getHash merge h txs tx
           = ((merge h aTx tx).1, txs, (merge h aTx tx).2))
  \/ (mergeTx getHash merge h txs tx = (h, txs, Some TypeError)
      /\ (h !! tx = None \/ exists aTx, aTx ∈ txs /\ h !! aTx = None)).
Proof.
  pose proof (mergeTx_loop_cases h txs tx) as H. unfold mergeTx.
  destruct (mergeTx_loop getHash merge h txs tx) as [[h' e]|]; [| by left].
  right. destruct H as [(aTx & Hin & Hres) | (Hres & Hwhy)].
  - left. exists aTx. split; [done |]. by rewrite <- Hres.
  - right. injection Hres as -> ->. done.
Qed.

Lemma hashAt_Some (h : gmap ref MoneroTx) (r : ref) (t : MoneroTx) :
  h !! r = Some t -> hashAt getHash h r = Some (getHash t).
Proof. unfold hashAt. by intros ->. Qed.

Lemma hashAt_is_Some (h : gmap ref MoneroTx) (r : ref) :
  is_Some (hashAt getHash h r) <-> is_Some (h !! r).
Proof. unfold hashAt. by rewrite fmap_is_Some. Qed.

Lemma hashAt_bound (h h' : gmap ref MoneroTx) (txs : list ref) :
  (forall r, hashAt getHash h' r = hashAt getHash h r) ->
  (forall r, r ∈ txs -> is_Some (h !! r)) ->
  forall r, r ∈ txs -> is_Some (h' !! r).
Proof.
  intros Hsame Hall r Hr. apply hashAt_is_Some. rewrite Hsame.
  apply hashAt_is_Some. by apply Hall.
Qed.

(** X12. A list in which no two transactions have the same hash stays
    such a list under [mergeTx], provided [merge] returns and changes
    no hash. *)
Theorem mergeTx_distinctHashes (h : gmap ref MoneroTx) (txs : list ref) (tx : ref) :
  mergeKeepsHashes getHash merge ->
  is_Some (h !! tx) ->
  distinctHashes getHash h txs ->
  distinctHashes getHash (mergeTx getHash merge h txs tx).1.1
    (mergeTx getHash merge h txs tx).1.2
  /\ (mergeTx getHash merge h txs tx).2 = None.
Proof.
  intros Hmerge [t Ht] [Hall Hnodup].
  pose proof (mergeTx_loop_first getHash merge h txs tx t Ht Hall) as H.
  unfold mergeTx. destruct (mergeTx_loop getHash merge h txs tx) as [[h' e]|].
  - destruct H as (pre & aTx & post & a & -> & Ha & Hhash & Hpre & Hres).
    destruct (Hmerge h aTx tx) as [He Hsame]; [by exists a | by exists t |].
    rewrite <- Hres in He, Hsame.
    simpl in *. split; [| done]. split.
    + by apply (hashAt_bound h h').
    + replace (hashAt getHash h' <$> pre ++ aTx :: post)
        with (hashAt getHash h <$> pre ++ aTx :: post); [done |].
      apply list_fmap_ext. intros i r _. by rewrite Hsame.
  - simpl. split; [| done]. split.
    + intros r Hr. apply elem_of_app in Hr as [Hr | Hr]; [by apply Hall |].
      apply list_elem_of_singleton in Hr as ->. by exists t.
    + rewrite fmap_app. apply NoDup_app. split; [done |]. split.
      * intros x Hx Hx'. apply list_elem_of_singleton in Hx'. subst x.
        apply list_elem_of_fmap in Hx as (r & Hr & Hin).
        destruct (Hall r Hin) as [b Hb].
        rewrite (hashAt_Some h tx t Ht), (hashAt_Some h r b Hb) in Hr.
        injection Hr as Hr. by apply (H r b Hin Hb).
      * apply NoDup_singleton.
Qed.

(** X13. Merging the same transaction a second time never appends it
    again: after one call the list holds an entry with its hash, and
    the second call leaves the list as the first call left it. *)
Theorem mergeTx_twice (h : gmap ref MoneroTx) (txs : list ref) (tx : ref) :
  mergeKeepsHashes getHash merge ->
  is_Some (h !! tx) ->
  (forall r, r ∈ txs -> is_Some (h !! r)) ->
  (mergeTx getHash merge
     (mergeTx getHash merge h txs tx).1.1 (mergeTx getHash merge h txs tx).1.2 tx).1.2
  = (mergeTx getHash merge h txs tx).1.2
  /\ (length (mergeTx getHash merge h txs tx).1.2 <= S (length txs))%nat.
Proof.
  intros Hmerge [t Ht] Hall.
  pose proof (mergeTx_loop_first getHash merge h txs tx t Ht Hall) as H1.
  assert (Hsecond : forall h1 l1 t1,
             h1 !! tx = Some t1 ->
             (forall r, r ∈ l1 -> is_Some (h1 !! r)) ->
             (exists r b, r ∈ l1 /\ h1 !! r = Some b /\ getHash b = getHash t1) ->
             (mergeTx getHash merge h1 l1 tx).1.2 = l1).
  { intros h1 l1 t1 Ht1 Hall1 (r & b & Hr & Hb & Hrb).
    pose proof (mergeTx_loop_first getHash merge h1 l1 tx t1 Ht1 Hall1) as H2.
    unfold mergeTx. destruct (mergeTx_loop getHash merge h1 l1 tx) as [[h2 e2]|]; [done |].
    exfalso. by apply (H2 r b Hr Hb). }
  unfold mergeTx at 2 3 4 5.
  destruct (mergeTx_loop getHash merge h txs tx) as [[h' e]|].
  - destruct H1 as (pre & aTx & post & a & -> & Ha & Hhash & Hpre & Hres).
    destruct (Hmerge h aTx tx) as [He Hsame]; [by exists a | by exists t |].
    rewrite <- Hres in He, Hsame.
    simpl in *. split; [| lia].
    assert (Htx' : is_Some (h' !! tx)).
    { apply hashAt_is_Some. rewrite Hsame. apply hashAt_is_Some. by exists t. }
    destruct Htx' as [t1 Ht1].
    assert (Ha' : is_Some (h' !! aTx)).
    { apply hashAt_is_Some. rewrite Hsame. apply hashAt_is_Some. by exists a. }
    destruct Ha' as [a1 Ha1].
    apply (Hsecond h' _ t1 Ht1).
    + by apply (hashAt_bound h h').
    + exists aTx, a1. split; [set_solver | split; [done |]].
      pose proof (Hsame aTx) as E1. pose proof (Hsame tx) as E2.
      rewrite (hashAt_Some h' aTx a1 Ha1), (hashAt_Some h aTx a Ha) in E1.
      rewrite (hashAt_Some h' tx t1 Ht1), (hashAt_Some h tx t Ht) in E2.
      congruence.
  - simpl. split; [| rewrite length_app; simpl; lia].
    apply (Hsecond h _ t Ht).
    + intros r Hr. apply elem_of_app in Hr as [Hr | Hr]; [by apply Hall |].
      apply list_elem_of_singleton in Hr as ->. by exists t.
    + exists tx, t. split; [set_solver | done].
Qed.
End MergeTxMore.

(* ------------------------------------------------------------------ *)
(** ** Address validation and conversion with the module loaded        *)
(* ------------------------------------------------------------------ *)

(** A [map] fails with the error of the first element its callback
    fails on. *)
Lemma mapC_Throw {A B} (f : A -> completion B) (pre post : list A) (x : A)
    (e : JsError) :
  (forall y, y ∈ pre -> exists v, f y = Normal v) ->
  f x = Throw e ->
  mapC f (pre ++ x :: post) = Throw e.
Proof.
  intros Hpre Hx. induction pre as [|y pre IH]; simpl.
  - by rewrite Hx.
  - destruct (Hpre y) as [v Hv]; [by left |]. rewrite Hv. simpl.
    rewrite IH; [done |]. intros z Hz. apply Hpre. by right.
Qed.

Section ProviderMore.
Variable isBase58 : string -> bool.
Variable validateNetworkType : JsVal -> completion unit.
Variable JSON_parse : string -> completion JsVal.
Variable JSON_parse_blocks : string -> completion BlocksJson.

Lemma validateAddress_string (wasm : option WasmModule) (s : string) (networkType : JsVal) :
  s <> "" -> isBase58 s = true ->
  validateAddress isBase58 validateNetworkType wasm (JStr s) networkType
  = (validateNetworkType networkType;;
     match wasm with
     | None => throwMoneroError wasmNotLoaded
     | Some m =>
         if negb (String.eqb (validate_address m s networkType) "")
         then Throw (Error (validate_address m s networkType))
         else Normal tt
     end).
Proof.
  intros Hs Hb. unfold validateAddress, assert. simpl.
  destruct s as [|c s]; [done |]. simpl. by rewrite Hb.
Qed.

(** X14. With the module loaded, [validateAddress] returns exactly when
    the address is a non-empty base-58 string, the network type is
    valid and the module reports no error for the two; a report of the
    module is thrown as an error with the report as message; and an
    address that is not base 58 is refused by the assertion before the
    network type or the module is looked at. *)
Theorem validateAddress_loaded (m : WasmModule) (address networkType : JsVal) :
  (validateAddress isBase58 validateNetworkType (Some m) address networkType = Normal tt <->
     exists s, address = JStr s /\ s <> "" /\ isBase58 s = true
               /\ validateNetworkType networkType = Normal tt
               /\ validate_address m s networkType = "")
  /\ (forall s,
        address = JStr s -> s <> "" -> isBase58 s = true ->
        validateNetworkType networkType = Normal tt ->
        validate_address m s networkType <> "" ->
        validateAddress isBase58 validateNetworkType (Some m) address networkType
        = Throw (Error (validate_address m s networkType)))
  /\ (forall s wasm,
        address = JStr s -> s <> "" -> isBase58 s = false ->
        validateAddress isBase58 validateNetworkType wasm address networkType
        = Throw (AssertionError (Some "Address is not base 58"))).
Proof.
  split; [| split].
  - split.
    + destruct address as [| | | |s| |]; try done. intros H. exists s.
      assert (Hs : s <> "").
      { intros ->. done. }
      assert (Hb : isBase58 s = true).
      { destruct (isBase58 s) eqn:Hb; [done |]. exfalso.
        unfold validateAddress, assert in H. simpl in H.
        destruct s as [|c s]; [done |]. simpl in H. by rewrite Hb in H. }
      rewrite (validateAddress_string _ s networkType Hs Hb) in H.
      destruct (validateNetworkType networkType) as [[]|e]; [| done]. simpl in H.
      destruct (String.eqb_spec (validate_address m s networkType) "") as [E|E]; [| done].
      done.
    + intros (s & -> & Hs & Hb & Hnt & Hm).
      rewrite (validateAddress_string _ s networkType Hs Hb), Hnt, Hm. done.
  - intros s -> Hs Hb Hnt Hm.
    rewrite (validateAddress_string _ s networkType Hs Hb), Hnt. simpl.
    by destruct (String.eqb_spec (validate_address m s networkType) "").
  - intros s wasm -> Hs Hb. unfold validateAddress, assert. simpl.
    destruct s as [|c s]; [done |]. simpl. by rewrite Hb.
Qed.

(** X15. [isValidAddress] asks the module about the address with the
    network type undefined: it answers [true] exactly when the address
    is a non-empty base-58 string, [MoneroNetworkType.validate] accepts
    undefined, the module is loaded and it reports no error for the
    address and undefined.  So where undefined is no valid network
    type, [isValidAddress] answers [false] on every address. *)
Theorem isValidAddress_undefined_networkType
    (wasm : option WasmModule) (address networkType : JsVal) :
  (isValidAddress isBase58 validateNetworkType wasm address networkType = true <->
     exists s m, address = JStr s /\ s <> "" /\ isBase58 s = true
                 /\ validateNetworkType JUndefined = Normal tt
                 /\ wasm = Some m
                 /\ validate_address m s JUndefined = "")
  /\ ((forall u, validateNetworkType JUndefined <> Normal u) ->
      isValidAddress isBase58 validateNetworkType wasm address networkType = false).
Proof.
  assert (Hiff :
    isValidAddress isBase58 validateNetworkType wasm address networkType = true <->
    exists s m, address = JStr s /\ s <> "" /\ isBase58 s = true
                /\ validateNetworkType JUndefined = Normal tt
                /\ wasm = Some m
                /\ validate_address m s JUndefined = "").
  { unfold isValidAddress. split.
    - destruct address as [| | | |s| |]; try done. intros H.
      assert (Hs : s <> "").
      { intros ->. done. }
      assert (Hb : isBase58 s = true).
      { destruct (isBase58 s) eqn:Hb; [done |]. exfalso.
        unfold validateAddress, assert in H. simpl in H.
        destruct s as [|c s]; [done |]. simpl in H. by rewrite Hb in H. }
      rewrite (validateAddress_string _ s JUndefined Hs Hb) in H.
      destruct (validateNetworkType JUndefined) as [[]|e] eqn:Hnt; [| done].
      simpl in H. destruct wasm as [m|]; [| done].
      destruct (String.eqb_spec (validate_address m s JUndefined) "") as [E|E]; [| done].
      by exists s, m.
    - intros (s & m & -> & Hs & Hb & Hnt & -> & Hm).
      rewrite (validateAddress_string _ s JUndefined Hs Hb), Hnt, Hm. done. }
  split; [exact Hiff |].
  intros Hnt. apply not_true_is_false. intros H.
  apply Hiff in H as (s & m & _ & _ & _ & Hok & _). by apply (Hnt tt).
Qed.

(** X16. With the module loaded, [binaryBlocksToJson] gives no partial
    result.  An array that is a window of a larger buffer ends the call
    with a RangeError before the module converts anything.  For an
    array with a buffer of its own and a block allocated within the
    module's memory: an answer that does not parse, or a first block
    string that does not parse, ends the call with that error before
    any transaction string is looked at; and when all block strings
    parse, the first transaction string that does not parse after its
    repair ends it with that error. *)
Theorem binaryBlocksToJson_first_failure
    (m : WasmModule) (uint8arr : Uint8Array.t) (e : JsError) :
  ((Uint8Array.length uint8arr < length (Uint8Array.buffer uint8arr))%nat ->
   binaryBlocksToJson JSON_parse JSON_parse_blocks (Some m) uint8arr = Throw RangeError)
  /\ (spansBuffer uint8arr ->
      allocates m (Uint8Array.length uint8arr) ->
      (JSON_parse_blocks (blocksText m (Uint8Array.buffer uint8arr)) = Throw e ->
       binaryBlocksToJson JSON_parse JSON_parse_blocks (Some m) uint8arr = Throw e)
      /\ (forall json pre blockStr post,
            JSON_parse_blocks (blocksText m (Uint8Array.buffer uint8arr)) = Normal json ->
            json_blocks json = pre ++ blockStr :: post ->
            (forall s, s ∈ pre -> exists v, JSON_parse s = Normal v) ->
            JSON_parse blockStr = Throw e ->
            binaryBlocksToJson JSON_parse JSON_parse_blocks (Some m) uint8arr = Throw e)
      /\ (forall json pre txsPre tx txsPost post,
            JSON_parse_blocks (blocksText m (Uint8Array.buffer uint8arr)) = Normal json ->
            (forall s, s ∈ json_blocks json -> exists v, JSON_parse s = Normal v) ->
            json_txs json = pre ++ Some (txsPre ++ tx :: txsPost) :: post ->
            (forall l s, Some l ∈ pre -> s ∈ l ->
               exists v, JSON_parse (replace "," "{" s +:+ "}") = Normal v) ->
            (forall s, s ∈ txsPre ->
               exists v, JSON_parse (replace "," "{" s +:+ "}") = Normal v) ->
            JSON_parse (replace "," "{" tx +:+ "}") = Throw e ->
            binaryBlocksToJson JSON_parse JSON_parse_blocks (Some m) uint8arr = Throw e)).
Proof.
  split.
  { intros Hlt. unfold binaryBlocksToJson. by rewrite (toHeap_window m uint8arr Hlt). }
  intros Hspan Halloc.
  assert (Hrun : forall k : list Byte.byte * string -> completion BlocksResult,
             (toHeap m uint8arr ≫= k)
             = k (memoryWith m (Uint8Array.buffer uint8arr),
                  binMemInfoOf m (Uint8Array.buffer uint8arr))).
  { intros k. by rewrite (toHeap_spans m uint8arr Hspan Halloc). }
  split; [| split].
  - intros H. unfold binaryBlocksToJson. rewrite Hrun. simpl.
    fold (blocksText m (Uint8Array.buffer uint8arr)). by rewrite H.
  - intros json pre blockStr post Hjson Hblocks Hpre Hfail.
    unfold binaryBlocksToJson. rewrite Hrun. simpl.
    fold (blocksText m (Uint8Array.buffer uint8arr)).
    rewrite Hjson. simpl. rewrite Hblocks.
    by rewrite (mapC_Throw (fun blockStr => JSON_parse blockStr) pre post blockStr e Hpre Hfail).
  - intros json pre txsPre tx txsPost post Hjson Hblocks Htxs Hpre HtxsPre Hfail.
    unfold binaryBlocksToJson. rewrite Hrun. simpl.
    fold (blocksText m (Uint8Array.buffer uint8arr)).
    rewrite Hjson. simpl.
    destruct (mapC_Normal (fun blockStr => JSON_parse blockStr) (json_blocks json) Hblocks)
      as (bs & Hbs & _).
    rewrite Hbs. simpl. rewrite Htxs.
    set (g := fun otxs : option (list string) =>
                match otxs with
                | Some l => mapC (fun tx => JSON_parse (replace "," "{" tx +:+ "}")) l
                | None => Normal []
                end).
    rewrite (mapC_Throw g pre post (Some (txsPre ++ tx :: txsPost)) e); [done | |].
    + intros [l|] Hl; simpl; [| by eexists].
      destruct (mapC_Normal (fun tx => JSON_parse (replace "," "{" tx +:+ "}")) l)
        as (vs & Hvs & _); [by intros s; apply Hpre | by eexists].
    + simpl. by apply mapC_Throw.
Qed.
End ProviderMore.

(* ------------------------------------------------------------------ *)
(** ** The presence, membership and range clauses                      *)
(* ------------------------------------------------------------------ *)

Lemma defined_is_Some {A} (o : option A) : defined o = true <-> is_Some o.
Proof.
  destruct o as [a|]; simpl; split; done.
Qed.

Lemma includes_true (ids : list string) (x : option string) :
  includes ids x = true <-> exists s, x = Some s /\ s ∈ ids.
Proof.
  unfold includes. destruct x as [s|].
  - rewrite existsb_exists. split.
    + intros (y & Hy & Heq). apply String.eqb_eq in Heq as <-.
      exists s. split; [done | by apply list_elem_of_In].
    + intros (y & [= <-] & Hy). exists s. split; [by apply list_elem_of_In |].
      apply String.eqb_refl.
  - split; [done | by intros (s & ? & _)].
Qed.

Section TxFilterClauses.
Context {MoneroTransfer MoneroTransferFilter : Type}.
Variable transferMeetsCriteria : MoneroTransferFilter -> MoneroTransfer -> bool.

Implicit Types F : MoneroTxFilter MoneroTransfer MoneroTransferFilter.
Implicit Types t tx : MoneroTxWallet MoneroTransfer.

Lemma hasPaymentId_accepts (has : bool) tx :
  hasPaymentId_rejects has tx = false <-> (has = true <-> is_Some (getPaymentId tx)).
Proof.
  unfold hasPaymentId_rejects. rewrite <- defined_is_Some.
  destruct has, (defined (getPaymentId tx)); simpl; intuition congruence.
Qed.

Lemma hasOutgoingTransfer_accepts (has : bool) tx :
  hasOutgoingTransfer_rejects has tx = false <->
  (has = true <-> is_Some (getOutgoingTransfer tx)).
Proof.
  unfold hasOutgoingTransfer_rejects. rewrite <- defined_is_Some.
  destruct has, (defined (getOutgoingTransfer tx)); simpl; intuition congruence.
Qed.

Lemma hasIncomingTransfers_accepts (has : bool) tx :
  hasIncomingTransfers_rejects has tx = false <->
  (has = true <-> exists x l, getIncomingTransfers tx = Some (x :: l)).
Proof.
  unfold hasIncomingTransfers_rejects.
  assert (Hex : (exists x l, getIncomingTransfers tx = Some (x :: l)) <->
                match getIncomingTransfers tx with
                | Some (_ :: _) => True
                | _ => False
                end).
  { destruct (getIncomingTransfers tx) as [[|x l]|]; split; try done.
    - by intros (x & l & ?).
    - intros _. by exists x, l.
    - by intros (x & l & ?). }
  rewrite Hex.
  destruct (getIncomingTransfers tx) as [[|x l]|]; destruct has; simpl;
    intuition congruence.
Qed.

Lemma minHeight_accepts (min : Z) (height : option Z) :
  minHeight_rejects min height = false <-> exists h, height = Some h /\ (min <= h)%Z.
Proof.
  unfold minHeight_rejects. destruct height as [h|].
  - rewrite Z.ltb_ge. split; [by exists h | by intros (h' & [= <-] & ?)].
  - split; [done | by intros (h & ? & _)].
Qed.

Lemma maxHeight_accepts (max : Z) (height : option Z) :
  maxHeight_rejects max height = false <-> exists h, height = Some h /\ (h <= max)%Z.
Proof.
  unfold maxHeight_rejects. destruct height as [h|].
  - rewrite Z.gtb_ltb, Z.ltb_ge. split; [by exists h | by intros (h' & [= <-] & ?)].
  - split; [done | by intros (h & ? & _)].
Qed.

(** X17. An accepted candidate has a payment id exactly when
    [hasPaymentId] asks for one, an outgoing transfer exactly when
    [hasOutgoingTransfer] asks for one, and at least one incoming
    transfer exactly when [hasIncomingTransfers] asks for them: an
    empty list of incoming transfers counts as none. *)
Theorem meetsCriteria_presence F tx :
  meetsCriteria transferMeetsCriteria F tx = true ->
  (forall has, getHasPaymentId F = Some has ->
     (has = true <-> is_Some (getPaymentId tx)))
  /\ (forall has, getHasOutgoingTransfer F = Some has ->
        (has = true <-> is_Some (getOutgoingTransfer tx)))
  /\ (forall has, getHasIncomingTransfers F = Some has ->
        (has = true <-> exists x l, getIncomingTransfers tx = Some (x :: l))).
Proof.
  rewrite meetsCriteria_true. intros (_ & _ & Hp & Ho & Hi & _).
  split; [| split].
  - intros has Hhas. apply hasPaymentId_accepts. by apply Hp.
  - intros has Hhas. apply hasOutgoingTransfer_accepts. by apply Ho.
  - intros has Hhas. apply hasIncomingTransfers_accepts. by apply Hi.
Qed.

(** X18. Under a filter with [txIds] an accepted candidate has an id,
    and the id is in the list; likewise for [paymentIds] and the
    payment id.  So a candidate without id passes no [txIds] clause,
    and an empty list rejects every candidate. *)
Theorem meetsCriteria_membership F tx :
  (meetsCriteria transferMeetsCriteria F tx = true ->
   (forall ids, getTxIds F = Some ids -> exists id, getId tx = Some id /\ id ∈ ids)
   /\ (forall ids, getPaymentIds F = Some ids ->
         exists id, getPaymentId tx = Some id /\ id ∈ ids))
  /\ (getTxIds F = Some [] \/ getPaymentIds F = Some [] ->
      meetsCriteria transferMeetsCriteria F tx = false)
  /\ (is_Some (getTxIds F) -> getId tx = None ->
      meetsCriteria transferMeetsCriteria F tx = false).
Proof.
  assert (Hnec : meetsCriteria transferMeetsCriteria F tx = true ->
            (forall ids, getTxIds F = Some ids ->
               exists id, getId tx = Some id /\ id ∈ ids)
            /\ (forall ids, getPaymentIds F = Some ids ->
                  exists id, getPaymentId tx = Some id /\ id ∈ ids)).
  { rewrite meetsCriteria_true. intros (_ & _ & _ & _ & _ & Hids & Hpids & _).
    split; intros ids Hset; apply includes_true; [by apply Hids | by apply Hpids]. }
  split; [exact Hnec | split].
  - intros Hempty. apply not_true_is_false. intros Hacc.
    destruct (Hnec Hacc) as [Hids Hpids]. destruct Hempty as [He | He].
    + destruct (Hids [] He) as (id & _ & Hin). by apply elem_of_nil in Hin.
    + destruct (Hpids [] He) as (id & _ & Hin). by apply elem_of_nil in Hin.
  - intros [ids Hset] Hnone. apply not_true_is_false. intros Hacc.
    destruct (Hnec Hacc) as [Hids _]. destruct (Hids ids Hset) as (id & Hid & _).
    congruence.
Qed.

(** X19. Under height clauses an accepted candidate has a known height,
    equal to [height], at least [minHeight] and at most [maxHeight],
    the bounds included.  A filter whose minimum is above its maximum
    rejects every candidate. *)
Theorem meetsCriteria_range F tx :
  (meetsCriteria transferMeetsCriteria F tx = true ->
   (forall h, getHeight F = Some h -> heightOf tx = Some h)
   /\ (forall min, getMinHeight F = Some min ->
         exists h, heightOf tx = Some h /\ (min <= h)%Z)
   /\ (forall max, getMaxHeight F = Some max ->
         exists h, heightOf tx = Some h /\ (h <= max)%Z))
  /\ (forall min max,
        getMinHeight F = Some min -> getMaxHeight F = Some max -> (max < min)%Z ->
        meetsCriteria transferMeetsCriteria F tx = false).
Proof.
  assert (Hnec : meetsCriteria transferMeetsCriteria F tx = true ->
            (forall h, getHeight F = Some h -> heightOf tx = Some h)
            /\ (forall min, getMinHeight F = Some min ->
                  exists h, heightOf tx = Some h /\ (min <= h)%Z)
            /\ (forall max, getMaxHeight F = Some max ->
                  exists h, heightOf tx = Some h /\ (h <= max)%Z)).
  { rewrite meetsCriteria_true.
    intros (_ & _ & _ & _ & _ & _ & _ & Hh & Hmin & Hmax).
    split; [exact Hh | split].
    - intros min Hset. apply minHeight_accepts. by apply Hmin.
    - intros max Hset. apply maxHeight_accepts. by apply Hmax. }
  split; [exact Hnec |].
  intros min max Hmin Hmax Hlt. apply not_true_is_false. intros Hacc.
  destruct (Hnec Hacc) as (_ & Hlo & Hhi).
  destruct (Hlo min Hmin) as (h & Hh & Hle).
  destruct (Hhi max Hmax) as (h' & Hh' & Hle').
  rewrite Hh in Hh'. injection Hh' as <-. lia.
Qed.

(** X20. [meetsCriteria] accepts exactly the candidates that satisfy
    every clause the filter sets, in whatever order the clauses are
    looked at: the template's eight fields, the nested transfer filter,
    the three presence flags, the two lists and the three height
    clauses.  A filter that sets nothing accepts every candidate. *)
Theorem meetsCriteria_conjunction F tx :
  (meetsCriteria transferMeetsCriteria F tx = true <->
     (forall t, getTx F = Some t -> templateAgrees t tx)
     /\ (forall tf, getTransferFilter F = Some tf ->
           exists transfer,
             transfer ∈ transfersOf tx /\ transferMeetsCriteria tf transfer = true)
     /\ (forall has, getHasPaymentId F = Some has ->
           (has = true <-> is_Some (getPaymentId tx)))
     /\ (forall has, getHasOutgoingTransfer F = Some has ->
           (has = true <-> is_Some (getOutgoingTransfer tx)))
     /\ (forall has, getHasIncomingTransfers F = Some has ->
           (has = true <-> exists x l, getIncomingTransfers tx = Some (x :: l)))
     /\ (forall ids, getTxIds F = Some ids ->
           exists id, getId tx = Some id /\ id ∈ ids)
     /\ (forall ids, getPaymentIds F = Some ids ->
           exists id, getPaymentId tx = Some id /\ id ∈ ids)
     /\ (forall h, getHeight F = Some h -> heightOf tx = Some h)
     /\ (forall min, getMinHeight F = Some min ->
           exists h, heightOf tx = Some h /\ (min <= h)%Z)
     /\ (forall max, getMaxHeight F = Some max ->
           exists h, heightOf tx = Some h /\ (h <= max)%Z))
  /\ (getTx F = None -> getTransferFilter F = None ->
      getHasPaymentId F = None -> getHasOutgoingTransfer F = None ->
      getHasIncomingTransfers F = None -> getTxIds F = None ->
      getPaymentIds F = None -> getHeight F = None ->
      getMinHeight F = None -> getMaxHeight F = None ->
      meetsCriteria transferMeetsCriteria F tx = true).
Proof.
  split.
  - rewrite meetsCriteria_true.
    setoid_rewrite template_rejects_false.
    setoid_rewrite (matchFound_true transferMeetsCriteria).
    setoid_rewrite hasPaymentId_accepts.
    setoid_rewrite hasOutgoingTransfer_accepts.
    setoid_rewrite hasIncomingTransfers_accepts.
    setoid_rewrite includes_true.
    setoid_rewrite minHeight_accepts.
    setoid_rewrite maxHeight_accepts.
    done.
  - intros H1 H2 H3 H4 H5 H6 H7 H8 H9 H10. apply meetsCriteria_true.
    rewrite H1, H2, H3, H4, H5, H6, H7, H8, H9, H10. repeat split; done.
Qed.
End TxFilterClauses.

(* ------------------------------------------------------------------ *)
(** ** Constructed filters and their setters                           *)
(* ------------------------------------------------------------------ *)

Section TxFilterConstructed.
Context {MoneroTransfer MoneroTransferFilter : Type}.
Variable transferMeetsCriteria : MoneroTransferFilter -> MoneroTransfer -> bool.
Variable newTxWalletFromState :
  FilterState MoneroTransfer MoneroTransferFilter -> completion (MoneroTxWallet MoneroTransfer).
Variable newTxWallet : JsVal -> completion (MoneroTxWallet MoneroTransfer).
Variable newTransferFilter : JsVal -> completion MoneroTransferFilter.
Variable lessThan_coerced : Z -> JsVal -> completion bool.
Variable greaterThan_coerced : Z -> JsVal -> completion bool.

Implicit Types tx : MoneroTxWallet MoneroTransfer.
Implicit Types state : FilterState MoneroTransfer MoneroTransferFilter.

(** X21. When the constructor returns, the template is a
    [MoneroTxWallet] and the nested filter a [MoneroTransferFilter] or
    a falsy value; an instance that was passed in is kept, and the
    eight other fields are as they were passed in. *)
Theorem constructor_result state state' :
  constructor newTxWalletFromState newTxWallet newTransferFilter state = Normal state' ->
  constructed state'
  /\ (forall t, state_tx state = TxInstance t -> state_tx state' = TxInstance t)
  /\ (forall f, state_transferFilter state = FilterInstance f ->
        state_transferFilter state' = FilterInstance f)
  /\ state_txIds state' = state_txIds state
  /\ state_hasPaymentId state' = state_hasPaymentId state
  /\ state_paymentIds state' = state_paymentIds state
  /\ state_height state' = state_height state
  /\ state_minHeight state' = state_minHeight state
  /\ state_maxHeight state' = state_maxHeight state
  /\ state_hasOutgoingTransfer state' = state_hasOutgoingTransfer state
  /\ state_hasIncomingTransfers state' = state_hasIncomingTransfers state.
Proof.
  unfold constructor, constructed.
  destruct state as [stx stf f1 f2 f3 f4 f5 f6 f7 f8]. simpl.
  destruct stx as [t|v]; simpl.
  - destruct stf as [f|w]; simpl.
    + intros [= <-]. simpl. repeat split; try done; by eauto.
    + destruct (truthy w) eqn:Ew; simpl.
      * destruct (newTransferFilter w) as [f|e]; simpl; [| done].
        intros [= <-]. simpl. repeat split; try done; by eauto.
      * intros [= <-]. simpl. repeat split; try done; try by eauto.
        intros v [= <-]. done.
  - destruct (truthy v) eqn:Ev; simpl.
    + destruct stf as [f|w]; simpl.
      * destruct (newTxWallet v) as [t|e]; simpl; [| done].
        intros [= <-]. simpl. repeat split; try done; by eauto.
      * destruct (truthy w) eqn:Ew; simpl.
        -- destruct (newTransferFilter w) as [f|e]; simpl; [| done].
           destruct (newTxWallet v) as [t|e]; simpl; [| done].
           intros [= <-]. simpl. repeat split; try done; by eauto.
        -- destruct (newTxWallet v) as [t|e]; simpl; [| done].
           intros [= <-]. simpl. repeat split; try done; try by eauto.
           intros v' [= <-]. done.
    + destruct (newTxWalletFromState _) as [t|e]; simpl; [| done].
      destruct stf as [f|w]; simpl.
      * intros [= <-]. simpl. repeat split; try done; by eauto.
      * destruct (truthy w) eqn:Ew; simpl.
        -- destruct (newTransferFilter w) as [f|e]; simpl; [| done].
           intros [= <-]. simpl. repeat split; try done; by eauto.
        -- intros [= <-]. simpl. repeat split; try done; try by eauto.
           intros v' [= <-]. done.
Qed.

Lemma constructor_constructs state state' :
  constructor newTxWalletFromState newTxWallet newTransferFilter state = Normal state' ->
  constructed state'.
Proof.
  unfold constructor, constructed.
  destruct state as [stx stf f1 f2 f3 f4 f5 f6 f7 f8]. simpl.
  destruct stx as [t|v]; simpl;
    [| destruct (truthy v) eqn:Ev; simpl;
       [| destruct (newTxWalletFromState _) as [t|e]; simpl; [| done]]];
    (destruct stf as [f|w]; simpl;
     [| destruct (truthy w) eqn:Ew; simpl;
        [destruct (newTransferFilter w) as [f|e]; simpl; [| done] |]]);
    try (destruct (newTxWallet v) as [t'|e']; simpl; [| done]);
    intros [= <-]; simpl; (split; [by eauto |]); intros x [= <-]; done.
Qed.

(** X22. Constructing twice is constructing once: the state the
    constructor returns is returned unchanged when the constructor is
    run on it, without any call to the constructors of the template or
    of the nested filter. *)
Theorem constructor_idempotent state state' :
  constructor newTxWalletFromState newTxWallet newTransferFilter state = Normal state' ->
  constructor newTxWalletFromState newTxWallet newTransferFilter state' = Normal state'
  /\ (forall newFromState' newTxWallet' newTransferFilter',
        constructor newFromState' newTxWallet' newTransferFilter' state' = Normal state').
Proof.
  intros H. apply constructor_constructs in H as [[t Ht] Hf].
  assert (Hany : forall nfs nw ntf, constructor nfs nw ntf state' = Normal state').
  { intros nfs nw ntf. unfold constructor. rewrite Ht. simpl.
    destruct (state_transferFilter state') as [f|v] eqn:Ef; simpl.
    - by rewrite Ht.
    - rewrite (Hf v eq_refl). simpl. by rewrite Ht. }
  split; [apply Hany | exact Hany].
Qed.

Lemma includes_untyped_Normal (v : JsVal) (x : option string) :
  hasIncludes v = true -> exists b, includes_untyped v x = Normal b.
Proof. destruct v; try done; simpl; by eexists. Qed.

Lemma lessThan_direct (h : Z) (v : JsVal) :
  comparesDirectly v = true -> exists b, lessThan lessThan_coerced h v = Normal b.
Proof. destruct v; try done; simpl; by eexists. Qed.

Lemma greaterThan_direct (h : Z) (v : JsVal) :
  comparesDirectly v = true -> exists b, greaterThan greaterThan_coerced h v = Normal b.
Proof. destruct v; try done; simpl; by eexists. Qed.

(** X23. On a constructed filter whose [txIds] and [paymentIds] are
    undefined, an array or a string, and whose height bounds are no
    string, array or object, [meetsCriteria] returns a boolean for
    every [MoneroTxWallet]: it throws nothing. *)
Theorem meetsCriteria_untyped_returns state tx :
  constructed state ->
  (isDefined (state_txIds state) = true -> hasIncludes (state_txIds state) = true) ->
  (isDefined (state_paymentIds state) = true ->
   hasIncludes (state_paymentIds state) = true) ->
  comparesDirectly (state_minHeight state) = true ->
  comparesDirectly (state_maxHeight state) = true ->
  exists b,
    meetsCriteria_untyped transferMeetsCriteria lessThan_coerced greaterThan_coerced
      state (TxInstance tx)
    = Normal b.
Proof.
  intros [[t Ht] Hf] Hids Hpids Hmin Hmax.
  unfold meetsCriteria_untyped. simpl. unfold meetsCriteria_clauses.
  rewrite Ht. simpl.
  destruct (template_rejects t tx); simpl; [by eexists |].
  assert (Htf : exists r, transfer_rejects_untyped transferMeetsCriteria
                            (state_transferFilter state) tx = Normal r).
  { destruct (state_transferFilter state) as [f|v] eqn:Ef; simpl; [by eexists |].
    rewrite (Hf v eq_refl). by eexists. }
  destruct Htf as [r ->]. simpl. destruct r; [by eexists |].
  destruct (isDefined (state_hasPaymentId state) && _); [by eexists |].
  destruct (isDefined (state_hasOutgoingTransfer state) && _); [by eexists |].
  destruct (isDefined (state_hasIncomingTransfers state) && _); [by eexists |].
  assert (Hi : forall v x,
             (isDefined v = true -> hasIncludes v = true) ->
             exists r, (if isDefined v
                        then b ← includes_untyped v x; Normal (negb b)
                        else Normal false) = Normal r).
  { intros v x Hv. destruct (isDefined v); [| by eexists].
    destruct (includes_untyped_Normal v x (Hv eq_refl)) as [b ->]. by eexists. }
  destruct (Hi _ (getId tx) Hids) as [r1 ->]. simpl. destruct r1; [by eexists |].
  destruct (Hi _ (getPaymentId tx) Hpids) as [r2 ->]. simpl. destruct r2; [by eexists |].
  destruct (isDefined (state_height state) && _); [by eexists |].
  assert (Hlo : exists r, (if isDefined (state_minHeight state)
                           then match heightOf tx with
                                | None => Normal true
                                | Some h => lessThan lessThan_coerced h (state_minHeight state)
                                end
                           else Normal false) = Normal r).
  { destruct (isDefined (state_minHeight state)); [| by eexists].
    destruct (heightOf tx) as [h|]; [| by eexists]. by apply lessThan_direct. }
  destruct Hlo as [r3 ->]. simpl. destruct r3; [by eexists |].
  assert (Hhi : exists r, (if isDefined (state_maxHeight state)
                           then match heightOf tx with
                                | None => Normal true
                                | Some h =>
                                    greaterThan greaterThan_coerced h (state_maxHeight state)
                                end
                           else Normal false) = Normal r).
  { destruct (isDefined (state_maxHeight state)); [| by eexists].
    destruct (heightOf tx) as [h|]; [| by eexists]. by apply greaterThan_direct. }
  destruct Hhi as [r4 ->]. simpl. destruct r4; by eexists.
Qed.

(** X24. The setters do not convert as the constructor does.  Here a
    plain value is data: a boolean, a number, a string, an array or an
    object of such values, which has no method to call.  After [setTx]
    with a truthy plain value, every evaluation throws a TypeError;
    after [setTransferFilter] with a truthy plain value, on a filter
    with an instance as template, the evaluation throws a TypeError for
    every candidate that passes the template and has an outgoing
    transfer or an incoming one, and rejects the others.  (An object
    that brings the getters of its own is not plain data, and nothing
    is said of it.) *)
Theorem setters_do_not_convert state (v : JsVal) tx :
  truthy v = true ->
  meetsCriteria_untyped transferMeetsCriteria lessThan_coerced greaterThan_coerced
    (set_state_tx state (TxOther v)) (TxInstance tx)
  = Throw TypeError
  /\ (forall t,
        state_tx state = TxInstance t -> template_rejects t tx = false ->
        meetsCriteria_untyped transferMeetsCriteria lessThan_coerced greaterThan_coerced
          (set_state_transferFilter state (FilterOther v)) (TxInstance tx)
        = if decide (transfersOf tx = []) then Normal false else Throw TypeError).
Proof.
  intros Hv. split.
  - unfold meetsCriteria_untyped. simpl. unfold meetsCriteria_clauses. simpl.
    by rewrite Hv.
  - intros t Ht Htmpl. unfold meetsCriteria_untyped. simpl.
    unfold meetsCriteria_clauses. simpl. rewrite Ht. simpl. rewrite Htmpl. simpl.
    rewrite Hv. unfold transfersOf.
    destruct (getOutgoingTransfer tx) as [o|]; simpl; [done |].
    destruct (getIncomingTransfers tx) as [[|x l]|]; simpl; done.
Qed.

End TxFilterConstructed.

(* ------------------------------------------------------------------ *)
(** ** Payment ids in the filter                                       *)
(* ------------------------------------------------------------------ *)

Lemma zeros_suffix_differs (p : string) (n : nat) :
  (0 < n)%nat -> p +:+ zeros n <> p.
Proof.
  intros Hn Heq. apply (f_equal String.length) in Heq.
  rewrite string_length_app, length_zeros in Heq. lia.
Qed.

Section TxFilterPaymentIds.
Context {MoneroTransfer MoneroTransferFilter : Type}.
Variable transferMeetsCriteria : MoneroTransferFilter -> MoneroTransfer -> bool.

Implicit Types F : MoneroTxFilter MoneroTransfer MoneroTransferFilter.
Implicit Types t tx : MoneroTxWallet MoneroTransfer.

(** X26. The filter compares payment ids as strings, not as
    [paymentIdsEqual] does: a filter that asks for the payment id [p],
    in its list or in its template, rejects a candidate whose payment
    id is [p] followed by zeros, although the two ids are equal for
    [paymentIdsEqual]. *)
Theorem meetsCriteria_paymentId_exact F tx (p : string) (n : nat) :
  (0 < n)%nat ->
  getPaymentId tx = Some (p +:+ zeros n) ->
  getPaymentIds F = Some [p] \/ (exists t, getTx F = Some t /\ getPaymentId t = Some p) ->
  meetsCriteria transferMeetsCriteria F tx = false
  /\ paymentIdsEqual p (p +:+ zeros n) = true.
Proof.
  intros Hn Htx Hasks. split; [| apply paymentIdsEqual_zeros].
  apply not_true_is_false. rewrite meetsCriteria_true.
  intros (Ht & _ & _ & _ & _ & _ & Hpids & _).
  destruct Hasks as [Hlist | (t & Hget & Hp)].
  - specialize (Hpids [p] Hlist). apply includes_true in Hpids as (q & Hq & Hin).
    rewrite Htx in Hq. injection Hq as <-.
    apply list_elem_of_singleton in Hin. by apply (zeros_suffix_differs p n).
  - specialize (Ht t Hget). apply template_rejects_false in Ht.
    destruct Ht as (_ & Hpay & _). specialize (Hpay p Hp).
    rewrite Htx in Hpay. injection Hpay as Hpay. by apply (zeros_suffix_differs p n).
Qed.
End TxFilterPaymentIds.

(* ------------------------------------------------------------------ *)
(** ** The further statements at sample data                           *)
(* ------------------------------------------------------------------ *)

Lemma paymentIdsEqual_same_length_witness :
  String.length pid_padded = String.length pid_other
  /\ (paymentIdsEqual pid_padded pid_other = true <-> pid_padded = pid_other).
Proof.
  assert (Hlen : String.length pid_padded = String.length pid_other) by reflexivity.
  split; [exact Hlen |].
  exact (paymentIdsEqual_same_length pid_padded pid_other Hlen).
Defined.

Lemma getLastTxPubKey_lengthField_witness :
  (2%N = 0%N \/ 2%N = 2%N)
  /\ getLastTxPubKey (lengthField 2 [7; 8; 9]%N ++ pubKeyField sample_key)
     = getLastTxPubKey (pubKeyField sample_key).
Proof.
  assert (Htag : 2%N = 0%N \/ 2%N = 2%N) by (right; reflexivity).
  split; [exact Htag |].
  exact (getLastTxPubKey_lengthField 2 [7; 8; 9]%N (pubKeyField sample_key) Htag).
Defined.

Lemma getLastTxPubKey_pubKeyField_witness :
  length sample_key = 32%nat
  /\ getLastTxPubKey (pubKeyField sample_key ++ 1%N :: sample_key)
     = match lastPubKeyIdxOf sample_key with
       | Normal (Some _) => getLastTxPubKey sample_key
       | Normal None => Normal (toHex sample_key)
       | Throw e => Throw e
       end.
Proof.
  assert (Hkey : length sample_key = 32%nat) by reflexivity.
  split; [exact Hkey |].
  exact (getLastTxPubKey_pubKeyField sample_key 1%N sample_key Hkey).
Defined.

Lemma getLastTxPubKey_hex_witness :
  getLastTxPubKey sample_extra = Normal (toHex sample_key)
  /\ (exists n, (n <= 32)%nat /\ String.length (toHex sample_key) = (2 * n)%nat).
Proof.
  assert (H : getLastTxPubKey sample_extra = Normal (toHex sample_key))
    by (vm_compute; reflexivity).
  split; [exact H |].
  exact (proj1 (getLastTxPubKey_hex sample_extra (toHex sample_key) H)).
Defined.

Lemma sample_merge_keeps_hashes : mergeKeepsHashes sample_getHash sample_merge.
Proof.
  intros h aTx tx [[hash [c|]] Ha] [[hash' c'] Ht]; unfold sample_merge;
    rewrite Ha, Ht; simpl; (split; [done |]); [done |].
  intros r. unfold hashAt. destruct (decide (r = aTx)) as [-> | Hne].
  - by rewrite lookup_insert_eq, Ha.
  - by rewrite lookup_insert_ne.
Qed.

Lemma mergeTx_distinctHashes_witness :
  mergeKeepsHashes sample_getHash sample_merge
  /\ is_Some (sample_heap !! 2%nat)
  /\ distinctHashes sample_getHash sample_heap [0%nat; 1%nat]
  /\ distinctHashes sample_getHash
       (mergeTx sample_getHash sample_merge sample_heap [0%nat; 1%nat] 2%nat).1.1
       (mergeTx sample_getHash sample_merge sample_heap [0%nat; 1%nat] 2%nat).1.2.
Proof.
  assert (H2 : is_Some (sample_heap !! 2%nat)) by (by eexists).
  assert (Hd : distinctHashes sample_getHash sample_heap [0%nat; 1%nat]).
  { split.
    - intros r Hr. apply elem_of_cons in Hr as [-> | Hr]; [by eexists |].
      apply elem_of_cons in Hr as [-> | Hr]; [by eexists |]. by apply elem_of_nil in Hr.
    - apply (bool_decide_unpack _). vm_compute. reflexivity. }
  split; [exact sample_merge_keeps_hashes | split; [exact H2 | split; [exact Hd |]]].
  exact (proj1 (mergeTx_distinctHashes sample_getHash sample_merge sample_heap
                  [0%nat; 1%nat] 2%nat sample_merge_keeps_hashes H2 Hd)).
Defined.

Lemma mergeTx_twice_witness :
  mergeKeepsHashes sample_getHash sample_merge
  /\ is_Some (sample_heap !! 2%nat)
  /\ (forall r, r ∈ [0%nat] -> is_Some (sample_heap !! r))
  /\ (mergeTx sample_getHash sample_merge
        (mergeTx sample_getHash sample_merge sample_heap [0%nat] 2%nat).1.1
        (mergeTx sample_getHash sample_merge sample_heap [0%nat] 2%nat).1.2 2%nat).1.2
     = (mergeTx sample_getHash sample_merge sample_heap [0%nat] 2%nat).1.2.
Proof.
  assert (H2 : is_Some (sample_heap !! 2%nat)) by (by eexists).
  assert (Hall : forall r, r ∈ [0%nat] -> is_Some (sample_heap !! r)).
  { intros r Hr. apply elem_of_cons in Hr as [-> | Hr]; [by eexists |].
    by apply elem_of_nil in Hr. }
  split; [exact sample_merge_keeps_hashes | split; [exact H2 | split; [exact Hall |]]].
  exact (proj1 (mergeTx_twice sample_getHash sample_merge sample_heap [0%nat] 2%nat
                  sample_merge_keeps_hashes H2 Hall)).
Defined.

Lemma meetsCriteria_presence_witness :
  meetsCriteria sample_transferMeetsCriteria sample_narrowFilter sample_tx = true
  /\ (forall has, getHasPaymentId sample_narrowFilter = Some has ->
        (has = true <-> is_Some (getPaymentId sample_tx))).
Proof.
  assert (H : meetsCriteria sample_transferMeetsCriteria sample_narrowFilter sample_tx = true)
    by reflexivity.
  split; [exact H |].
  exact (proj1 (meetsCriteria_presence sample_transferMeetsCriteria
                  sample_narrowFilter sample_tx H)).
Defined.

Lemma constructor_result_witness :
  constructor sample_newTxWalletFromState sample_newTxWallet sample_newTransferFilter
    sample_badState
  = Normal sample_badState
  /\ constructed sample_badState.
Proof.
  assert (H : constructor sample_newTxWalletFromState sample_newTxWallet
                sample_newTransferFilter sample_badState
              = Normal sample_badState) by reflexivity.
  split; [exact H |].
  exact (proj1 (constructor_result sample_newTxWalletFromState sample_newTxWallet
                  sample_newTransferFilter sample_badState sample_badState H)).
Defined.

Lemma constructor_idempotent_witness :
  constructor sample_newTxWalletFromState sample_newTxWallet sample_newTransferFilter
    sample_stringIdsState
  = Normal sample_stringIdsState
  /\ (forall newFromState' newTxWallet' newTransferFilter',
        constructor newFromState' newTxWallet' newTransferFilter' sample_stringIdsState
        = Normal sample_stringIdsState).
Proof.
  assert (H : constructor sample_newTxWalletFromState sample_newTxWallet
                sample_newTransferFilter sample_stringIdsState
              = Normal sample_stringIdsState) by reflexivity.
  split; [exact H |].
  exact (proj2 (constructor_idempotent sample_newTxWalletFromState sample_newTxWallet
                  sample_newTransferFilter sample_stringIdsState sample_stringIdsState H)).
Defined.

Lemma meetsCriteria_untyped_returns_witness :
  constructed sample_stringIdsState
  /\ (isDefined (state_txIds sample_stringIdsState) = true ->
      hasIncludes (state_txIds sample_stringIdsState) = true)
  /\ (isDefined (state_paymentIds sample_stringIdsState) = true ->
      hasIncludes (state_paymentIds sample_stringIdsState) = true)
  /\ comparesDirectly (state_minHeight sample_stringIdsState) = true
  /\ comparesDirectly (state_maxHeight sample_stringIdsState) = true
  /\ exists b,
       meetsCriteria_untyped sample_transferMeetsCriteria sample_coerced sample_coerced
         sample_stringIdsState (TxInstance sample_abTx)
       = Normal b.
Proof.
  assert (Hc : constructed sample_stringIdsState).
  { split; [by eexists | by intros v [= <-]]. }
  assert (H1 : isDefined (state_txIds sample_stringIdsState) = true ->
               hasIncludes (state_txIds sample_stringIdsState) = true)
    by (intros _; reflexivity).
  assert (H2 : isDefined (state_paymentIds sample_stringIdsState) = true ->
               hasIncludes (state_paymentIds sample_stringIdsState) = true)
    by (intros H; discriminate H).
  assert (H3 : comparesDirectly (state_minHeight sample_stringIdsState) = true)
    by reflexivity.
  assert (H4 : comparesDirectly (state_maxHeight sample_stringIdsState) = true)
    by reflexivity.
  split; [exact Hc | split; [exact H1 | split; [exact H2 | split; [exact H3 |
    split; [exact H4 |]]]]].
  exact (meetsCriteria_untyped_returns sample_transferMeetsCriteria sample_coerced
           sample_coerced sample_stringIdsState sample_abTx Hc H1 H2 H3 H4).
Defined.

Lemma setters_do_not_convert_witness :
  truthy (JObj [("isConfirmed", JBool true)]) = true
  /\ meetsCriteria_untyped sample_transferMeetsCriteria sample_coerced sample_coerced
       (set_state_tx sample_badState (TxOther (JObj [("isConfirmed", JBool true)])))
       (TxInstance sample_tx)
     = Throw TypeError.
Proof.
  assert (Hv : truthy (JObj [("isConfirmed", JBool true)]) = true) by reflexivity.
  split; [exact Hv |].
  exact (proj1 (setters_do_not_convert sample_transferMeetsCriteria sample_coerced
                  sample_coerced sample_badState (JObj [("isConfirmed", JBool true)])
                  sample_tx Hv)).
Defined.

Lemma meetsCriteria_paymentId_exact_witness :
  (0 < 48)%nat
  /\ getPaymentId sample_paddedTx = Some (pid_short +:+ zeros 48)
  /\ (getPaymentIds sample_pidFilter = Some [pid_short]
      \/ exists t, getTx sample_pidFilter = Some t /\ getPaymentId t = Some pid_short)
  /\ meetsCriteria sample_transferMeetsCriteria sample_pidFilter sample_paddedTx = false
  /\ paymentIdsEqual pid_short (pid_short +:+ zeros 48) = true.
Proof.
  assert (Hn : (0 < 48)%nat) by lia.
  assert (Htx : getPaymentId sample_paddedTx = Some (pid_short +:+ zeros 48))
    by reflexivity.
  assert (Hasks : getPaymentIds sample_pidFilter = Some [pid_short]
                  \/ exists t, getTx sample_pidFilter = Some t
                               /\ getPaymentId t = Some pid_short)
    by (left; reflexivity).
  split; [exact Hn | split; [exact Htx | split; [exact Hasks |]]].
  exact (meetsCriteria_paymentId_exact sample_transferMeetsCriteria sample_pidFilter
           sample_paddedTx pid_short 48 Hn Htx Hasks).
Defined.
